(** * ma-radar: the press-release scanner of [scanner.py]

    A shallow embedding of the scanner's pipeline (fetch client, source
    adapters, keyword matcher, seen-item store, digest builder and the
    orchestrating loop of [main]) together with the properties its
    specification states about them.

    Conventions of the embedding:
    - a Python [str] is a [string]; one [ascii] stands for one character
      with code point below 256.  [lower], [isspace] and the regular
      expression class [\s] are written out for exactly these code points;
    - a Python exception is a value of [exn]; a call that may raise returns
      [result];
    - the seen-item table (SQLite, primary key [url]) is a [gmap] from the
      url to the stored row;
    - everything the code takes from outside the process (the network, the
      wall clock, the date parser of [dateutil], [str] of a JSON value that
      is not a string) is a parameter. *)

From Stdlib Require Import ZArith Ascii String List Bool Lia Sorted Permutation.
From Stdlib Require Import DecimalString.
From stdpp Require Import base option list sorting strings gmap fin_maps.

Set Warnings "-register-all".
Local Open Scope Z_scope.

(** ** Python strings *)

Module Py.

Definition code (c : ascii) : N := N_of_ascii c.

(** [str.isspace] on one character, which is also the class [\s] of [re]
    on [str] patterns. *)
Definition isspace (c : ascii) : bool :=
  let n := code c in
  (((9 <=? n) && (n <=? 13)) || ((28 <=? n) && (n <=? 32))
   || (n =? 133) || (n =? 160))%N.

(** [str.lower] on one character: the letters A-Z and the upper-case
    letters of Latin-1 (all of 192..222 except the multiplication sign). *)
Definition lower_char (c : ascii) : ascii :=
  let n := code c in
  if (((65 <=? n) && (n <=? 90))
      || ((192 <=? n) && (n <=? 222) && negb (n =? 215)))%N
  then ascii_of_N (n + 32) else c.

Fixpoint lower (s : string) : string :=
  match s with
  | EmptyString => EmptyString
  | String c r => String (lower_char c) (lower r)
  end.

(** [s.startswith(p)] *)
Fixpoint startswith (s p : string) : bool :=
  match p, s with
  | EmptyString, _ => true
  | String _ _, EmptyString => false
  | String a p', String b s' => Ascii.eqb a b && startswith s' p'
  end.

(** [needle in s] *)
Fixpoint contains (s needle : string) : bool :=
  startswith s needle
  || match s with
     | EmptyString => false
     | String _ r => contains r needle
     end.

(** [s.endswith(suf)] *)
Fixpoint endswith (s suf : string) : bool :=
  String.eqb s suf
  || match s with
     | EmptyString => false
     | String _ r => endswith r suf
     end.

(** [re.sub(r"\s+", " ", s)]: every maximal run of white space becomes one
    blank.  [in_run] tells that the previous character was white space. *)
Fixpoint sub_spaces (in_run : bool) (s : string) : string :=
  match s with
  | EmptyString => EmptyString
  | String c r =>
      if isspace c
      then (if in_run then sub_spaces true r
            else String " " (sub_spaces true r))
      else String c (sub_spaces false r)
  end.

Fixpoint lstrip (s : string) : string :=
  match s with
  | EmptyString => EmptyString
  | String c r => if isspace c then lstrip r else s
  end.

Fixpoint rstrip (s : string) : string :=
  match s with
  | EmptyString => EmptyString
  | String c r =>
      match rstrip r with
      | EmptyString => if isspace c then EmptyString else String c EmptyString
      | r' => String c r'
      end
  end.

(** [s.strip()] *)
Definition strip (s : string) : string := rstrip (lstrip s).

(** [sep.join(l)] *)
Fixpoint join (sep : string) (l : list string) : string :=
  match l with
  | [] => EmptyString
  | [x] => x
  | x :: r => x +:+ sep +:+ join sep r
  end.

(** [str(n)] for an [int] *)
Definition str_of_int (n : Z) : string := NilZero.string_of_int (Z.to_int n).

(** Truthiness of a string: [bool(s)] *)
Definition truthy (s : string) : bool :=
  match s with EmptyString => false | _ => true end.

(** The line feed character as a string. *)
Definition nl : string := String (ascii_of_N 10) EmptyString.

End Py.

(** ** Exceptions *)

Inductive exn : Type :=
  | AttributeError
  | TypeError
  | HTTPError (status : Z)
  | ConnectionError (msg : string).

Inductive result (A : Type) : Type :=
  | Ok (a : A)
  | Raise (e : exn).
Arguments Ok {A} a.
Arguments Raise {A} e.

Definition bind {A B} (r : result A) (k : A -> result B) : result B :=
  match r with
  | Ok a => k a
  | Raise e => Raise e
  end.

Notation "'let!' x ':=' r 'in' k" := (bind r (fun x => k))
  (at level 10, x name, r at level 100, k at level 200).

(** ** Items *)

(** The dictionary every adapter builds.  The keys [source], [title], [url],
    [published_at] and [snippet] are always present; [published_at] and
    [snippet] may hold [None].  The keys [matched] and [score] are added by
    [main]; every reader uses [get] with the defaults [[]] and [0], so an
    absent key is represented by its default. *)
Record Item : Type := mkItem {
  source : string;
  title : string;
  url : string;
  published_at : option string;
  snippet : option string;
  matched : list string;
  score : Z
}.

(** [normalize_whitespace] (the argument [s or ""] is a string here). *)
Definition normalize_whitespace (s : string) : string :=
  Py.strip (Py.sub_spaces false s).

(** ** Keyword matcher *)

Definition weight (kw : string) : Z :=
  if String.eqb (Py.lower kw) "definitive agreement" then 5
  else if String.eqb (Py.lower kw) "acquisition" then 3
  else 2.

(** One turn of the loop of [match_keywords] on the pair [(matched, score)]. *)
Definition match_step (t : string) (acc : list string * Z) (kw : string)
  : list string * Z :=
  if Py.contains t (Py.lower kw)
  then (fst acc ++ [kw], snd acc + weight kw)
  else acc.

Definition match_keywords (text : string) (keywords : list string)
  : list string * Z :=
  fold_left (match_step (Py.lower text)) keywords ([], 0).

(** The matcher as the specification words it: the keywords that occur in
    the text, case-insensitively, and the sum of their weights. *)
Definition occurs_in (text kw : string) : bool :=
  Py.contains (Py.lower text) (Py.lower kw).

Definition matched_spec (text : string) (keywords : list string) : list string :=
  List.filter (occurs_in text) keywords.

Definition score_spec (text : string) (keywords : list string) : Z :=
  fold_right Z.add 0 (List.map weight (matched_spec text keywords)).

(** ** Fetch client *)

(** What [requests.get] hands back: the status line and the body. *)
Record response : Type := mkResponse {
  status_code : Z;
  body_text : string
}.

(** One call of [requests.get] either returns a response or raises (a
    transport error: refused connection, timeout, ...). *)
Inductive outcome : Type :=
  | Responds (r : response)
  | Fails (e : exn).

(** The network: the outcome of the [n]-th request of the run, asked for
    [url]. *)
Definition network : Type := nat -> string -> outcome.

(** [Response.raise_for_status] of the [requests] library: an [HTTPError]
    for the client-error and server-error classes (400..599), nothing for
    any other status. *)
Definition raise_for_status (r : response) : result unit :=
  if (400 <=? status_code r) && (status_code r <? 600)
  then Raise (HTTPError (status_code r))
  else Ok tt.

(** The body of the [try] of [safe_get]: one request and its status check. *)
Definition attempt (net : network) (url : string) (n : nat) : result response :=
  match net n url with
  | Fails e => Raise e
  | Responds r => let! _ := raise_for_status r in Ok r
  end.

(** The loop [for _ in range(3)] of [safe_get] with [k] turns left, [n]
    requests made so far and [last_err] as the code keeps it.  [raise None]
    is a [TypeError]. *)
Fixpoint safe_get_loop (k : nat) (net : network) (url : string) (n : nat)
    (last_err : option exn) : result response * nat :=
  match k with
  | O => (Raise (default TypeError last_err), n)
  | S k' =>
      match attempt net url n with
      | Ok r => (Ok r, S n)
      | Raise e => safe_get_loop k' net url (S n) (Some e)
      end
  end.

Definition safe_get (net : network) (url : string) (n : nat)
  : result response * nat :=
  safe_get_loop 3 net url n None.

(** ** Seen-item store *)

(** A row of the table [items]. *)
Record Row : Type := mkRow {
  row_url : string;
  row_source : string;
  row_title : string;
  row_published_at : option string;
  row_snippet : option string;
  row_matched : string;
  row_score : Z;
  row_first_seen_at : string
}.

(** The table [items]: [url] is its primary key. *)
Abbreviation store := (gmap string Row).

Definition row_of (now : string) (it : Item) : Row :=
  {| row_url := url it;
     row_source := source it;
     row_title := title it;
     row_published_at := published_at it;
     row_snippet := snippet it;
     row_matched := Py.join ", " (matched it);
     row_score := score it;
     row_first_seen_at := now |}.

(** [upsert_new]: the [INSERT] raises [sqlite3.IntegrityError] when a row
    with this primary key exists, which the code turns into [False]. *)
Definition upsert_new (now : string) (conn : store) (it : Item) : store * bool :=
  match conn !! url it with
  | Some _ => (conn, false)
  | None => (<[url it := row_of now it]> conn, true)
  end.

(** ** Source adapters: the two HTML link lists *)

(** An element of [soup.select("a[href]")]: its [href] attribute and the
    text [a.get_text(" ")]. *)
Record anchor : Type := mkAnchor {
  href : string;
  anchor_text : string
}.

Definition html_item (src base : string) (a : anchor) (text : string) : Item :=
  {| source := src;
     title := text;
     url := if Py.startswith (href a) "http" then href a else base +:+ href a;
     published_at := None;
     snippet := None;
     matched := [];
     score := 0 |}.

(** The loop body of [fetch_businesswire]: the items the anchor adds. *)
Definition businesswire_anchor (a : anchor) : list Item :=
  let text := normalize_whitespace (anchor_text a) in
  if negb (Py.truthy text) || (String.length text <? 12)%nat then []
  else if Py.contains (href a) "/news/home/"
       then [html_item "BusinessWire" "https://www.businesswire.com" a text]
       else [].

(** The loop body of [fetch_prnewswire]. *)
Definition prnewswire_anchor (a : anchor) : list Item :=
  let text := normalize_whitespace (anchor_text a) in
  if Py.contains (href a) "/news-releases/"
     && Py.endswith (href a) ".html"
     && (12 <? String.length text)%nat
  then [html_item "PRNewswire" "https://www.prnewswire.com" a text]
  else [].

(** The de-duplication loop shared by both: [seen] is the set of urls met,
    [uniq] the list built so far. *)
Definition dedupe_step (st : gset string * list Item) (it : Item)
  : gset string * list Item :=
  if decide (url it ∈ st.1) then st
  else ({[url it]} ∪ st.1, st.2 ++ [it]).

Definition dedupe (items : list Item) : list Item :=
  (fold_left dedupe_step items (∅, [])).2.

Definition businesswire_items (anchors : list anchor) : list Item :=
  take 50 (dedupe (flat_map businesswire_anchor anchors)).

Definition prnewswire_items (anchors : list anchor) : list Item :=
  take 60 (dedupe (flat_map prnewswire_anchor anchors)).

(** ** Source adapters: the JSON feed *)

(** What [r.json()] returns.  [None] is [JNull]; a [dict] is the list of its
    bindings, looked up from the front; a number is an integer. *)
Inductive json : Type :=
  | JNull
  | JBool (b : bool)
  | JNum (n : Z)
  | JStr (s : string)
  | JArr (l : list json)
  | JObj (kv : list (string * json)).

(** [bool(v)] *)
Definition truthy (v : json) : bool :=
  match v with
  | JNull => false
  | JBool b => b
  | JNum n => negb (n =? 0)
  | JStr s => Py.truthy s
  | JArr l => match l with [] => false | _ => true end
  | JObj kv => match kv with [] => false | _ => true end
  end.

(** [a or b] *)
Definition por (a b : json) : json := if truthy a then a else b.

(** [d.get(key)] on the bindings of a [dict] *)
Fixpoint dict_get (kv : list (string * json)) (key : string) : json :=
  match kv with
  | [] => JNull
  | (k, v) :: r => if String.eqb k key then v else dict_get r key
  end.

(** [it.get(key)]: only a [dict] has the method. *)
Definition get (it : json) (key : string) : result json :=
  match it with
  | JObj kv => Ok (dict_get kv key)
  | _ => Raise AttributeError
  end.

(** [normalize_whitespace(v)] on a JSON value: [re.sub] takes [v or ""] and
    raises [TypeError] unless that is a string. *)
Definition normalize_whitespace_json (v : json) : result string :=
  match por v (JStr "") with
  | JStr s => Ok (normalize_whitespace s)
  | _ => Raise TypeError
  end.

(** The characters of a string, each as a string of its own. *)
Fixpoint chars (s : string) : list json :=
  match s with
  | EmptyString => []
  | String c r => JStr (String c EmptyString) :: chars r
  end.

(** [for it in raw_items]: the elements of a list, the keys of a [dict], the
    characters of a string; anything else is not iterable. *)
Definition iterate (v : json) : result (list json) :=
  match v with
  | JArr l => Ok l
  | JObj kv => Ok (List.map (fun b => JStr b.1) kv)
  | JStr s => Ok (chars s)
  | _ => Raise TypeError
  end.

(** [data.get("Items") if isinstance(data, dict) else data] *)
Definition raw_items_of (data : json) : json :=
  match data with
  | JObj kv => dict_get kv "Items"
  | _ => data
  end.

Section Adapters.

(** [dtparser.parse(v).isoformat()], [None] when it raises. *)
Variable parse_iso : json -> option string.

(** [str(v)] for a value that is not a string. *)
Variable repr : json -> string.

(** [BeautifulSoup(text, "lxml").select("a[href]")] *)
Variable select_anchors : string -> list anchor.

(** [r.json()] on the body of a response. *)
Variable parse_json : string -> result json.

(** [str(v)] *)
Definition str (v : json) : string :=
  match v with
  | JStr s => s
  | _ => repr v
  end.

(** The body of the loop of [fetch_globenewswire_json] on one entry: the
    items it appends ([[]] after [continue]), or the exception that leaves
    the adapter.  [str(link)] begins with "http" only when [link] is that
    string itself, so [full] is written with [str link] on both sides. *)
Definition globenewswire_entry (it : json) : result (list Item) :=
  let! t1 := get it "Title" in
  let! t2 := get it "title" in
  let! title := normalize_whitespace_json (por t1 (por t2 (JStr ""))) in
  let! l1 := get it "Url" in
  let! l2 := get it "url" in
  let! l3 := get it "Link" in
  let! l4 := get it "link" in
  let link := por l1 (por l2 (por l3 l4)) in
  if negb (Py.truthy title) || negb (truthy link) then Ok []
  else
    let! p1 := get it "Published" in
    let! p2 := get it "published" in
    let! p3 := get it "PubDate" in
    let! p4 := get it "pubDate" in
    let published := por p1 (por p2 (por p3 p4)) in
    let published_iso := if truthy published then parse_iso published else None in
    let full := if Py.startswith (str link) "http" then str link
                else "https://www.globenewswire.com" +:+ str link in
    let! s1 := get it "Teaser" in
    let! s2 := get it "teaser" in
    let! s3 := get it "Summary" in
    let! s4 := get it "summary" in
    let! snip := normalize_whitespace_json (por s1 (por s2 (por s3 (por s4 (JStr ""))))) in
    Ok [ {| source := "GlobeNewswire";
            title := title;
            url := full;
            published_at := published_iso;
            snippet := if Py.truthy snip then Some snip else None;
            matched := [];
            score := 0 |} ].

(** The loop [for it in raw_items] with [items] as accumulator. *)
Fixpoint globenewswire_loop (raw : list json) (items : list Item)
  : result (list Item) :=
  match raw with
  | [] => Ok items
  | it :: rest =>
      let! new := globenewswire_entry it in
      globenewswire_loop rest (items ++ new)
  end.

(** [fetch_globenewswire_json] from [data = r.json()] on. *)
Definition globenewswire_items (data : json) : result (list Item) :=
  let raw_items := raw_items_of data in
  if negb (truthy raw_items) then Ok []
  else
    let! raw := iterate raw_items in
    let! items := globenewswire_loop raw [] in
    Ok (take 60 items).

(** The three adapters, from the url on.  Each returns its items (or the
    exception it leaves with) and the number of requests made so far. *)
Definition fetch_businesswire (net : network) (url : string) (n : nat)
  : result (list Item) * nat :=
  let (r, n') := safe_get net url n in
  (let! r := r in
   let! _ := raise_for_status r in
   Ok (businesswire_items (select_anchors (body_text r))), n').

Definition fetch_prnewswire (net : network) (url : string) (n : nat)
  : result (list Item) * nat :=
  let (r, n') := safe_get net url n in
  (let! r := r in
   let! _ := raise_for_status r in
   Ok (prnewswire_items (select_anchors (body_text r))), n').

Definition fetch_globenewswire_json (net : network) (url : string) (n : nat)
  : result (list Item) * nat :=
  let (r, n') := safe_get net url n in
  (let! r := r in
   let! _ := raise_for_status r in
   let! data := parse_json (body_text r) in
   globenewswire_items data, n').

End Adapters.

(** ** Digest builder *)

(** The sort key [(x.get("score", 0), x.get("published_at") or "")]. *)
Definition sort_key (it : Item) : Z * string :=
  (score it, default "" (published_at it)).

(** [a < b] on such tuples: the first components decide unless they are
    equal, then the strings do, character by character. *)
Definition key_ltb (a b : Z * string) : bool :=
  match a.1 ?= b.1 with
  | Lt => true
  | Gt => false
  | Eq => String.ltb a.2 b.2
  end.

(** [list.sort(key=..., reverse=True)] is a stable sort into descending
    order, written here as the insertion sort with that result: an item goes
    in front of the first item whose key is not greater than its own. *)
Fixpoint insert_desc (x : Item) (l : list Item) : list Item :=
  match l with
  | [] => [x]
  | y :: r =>
      if key_ltb (sort_key x) (sort_key y) then y :: insert_desc x r
      else x :: l
  end.

Definition sort_desc (l : list Item) : list Item :=
  fold_right insert_desc [] l.

(** The lines of one item, after its section header. *)
Definition item_lines (it : Item) : list string :=
  let matched := Py.join ", " (matched it) in
  let pub := default "" (published_at it) in
  ["- " +:+ title it; "  " +:+ url it]
  ++ (if Py.truthy pub then ["  Published: " +:+ pub] else [])
  ++ (if Py.truthy matched
      then ["  Matched: " +:+ matched +:+ " (score " +:+ Py.str_of_int (score it) +:+ ")"]
      else [])
  ++ (match snippet it with
      | Some sn => if Py.truthy sn then ["  Snippet: " +:+ sn] else []
      | None => []
      end).

Definition section_header (src : string) : list string :=
  [""; "== " +:+ src +:+ " =="].

(** One turn of the rendering loop on [(current_source, lines)]. *)
Definition render_step (st : option string * list string) (it : Item)
  : option string * list string :=
  let st' := if decide (Some (source it) = st.1) then st
             else (Some (source it), st.2 ++ section_header (source it)) in
  (st'.1, st'.2 ++ item_lines it).

(** The first line; the characters after "Radar" are kept as the bytes of
    the source file. *)
Definition digest_title (today : string) : string :=
  "Daily M&A Radar â€” " +:+ today.

Definition no_matches : string := "No new keyword matches today.".

(** [build_digest]; [today] is [datetime.now().strftime('%Y-%m-%d')]. *)
Definition build_digest (today : string) (new_hits : list Item) : string :=
  let lines := [digest_title today; ""] in
  match new_hits with
  | [] => Py.join Py.nl (lines ++ [no_matches])
  | _ => Py.join Py.nl (fold_left render_step (sort_desc new_hits) (None, lines)).2
  end.

(** The rendering as the specification words it: the items in sorted order,
    a section header in front of an item exactly when its source is not the
    source of the item rendered before it. *)
Fixpoint render_spec (prev : option string) (l : list Item) : list string :=
  match l with
  | [] => []
  | it :: r =>
      (if decide (Some (source it) = prev) then [] else section_header (source it))
      ++ item_lines it ++ render_spec (Some (source it)) r
  end.

(** An item carries a date when [published_at] is a non-empty string. *)
Definition dated (it : Item) : Prop :=
  exists d, published_at it = Some d /\ d <> "".

Definition undated (it : Item) : Prop :=
  published_at it = None \/ published_at it = Some "".

(** [b] is not greater than [a]: the order of a list sorted descending. *)
Definition key_ge (a b : Item) : Prop :=
  key_ltb (sort_key a) (sort_key b) = false.

(** ** Orchestrator *)

Record config : Type := mkConfig {
  keywords : list string;
  businesswire : string;
  prnewswire : string;
  globenewswire_json : string
}.

(** The text [f"{it.get('title','')} {it.get('snippet','')}"]: the key
    [snippet] is present in every item, so the default is never used and a
    [None] is formatted as the word None. *)
Definition item_text (it : Item) : string :=
  title it +:+ " " +:+ match snippet it with
                       | Some sn => sn
                       | None => "None"
                       end.

(** [it["matched"] = matched; it["score"] = score] *)
Definition set_match (it : Item) (m : list string) (sc : Z) : Item :=
  {| source := source it; title := title it; url := url it;
     published_at := published_at it; snippet := snippet it;
     matched := m; score := sc |}.

(** The state of the second loop of [main]: the table, [new_hits] and the
    number of items met, which indexes the clock. *)
Record run_state : Type := mkRun {
  conn : store;
  new_hits : list Item;
  ticks : nat
}.

Section Orchestrator.

Variable parse_iso : json -> option string.
Variable repr : json -> string.
Variable select_anchors : string -> list anchor.
Variable parse_json : string -> result json.

(** [datetime.now(timezone.utc).isoformat()] at the [k]-th item. *)
Variable clock : nat -> string.

(** One turn of [for it in all_items]. *)
Definition process_item (kws : list string) (st : run_state) (it : Item)
  : run_state :=
  let '(m, sc) := match_keywords (item_text it) kws in
  match m with
  | [] => mkRun (conn st) (new_hits st) (S (ticks st))
  | _ =>
      let it' := set_match it m sc in
      let '(c, inserted) := upsert_new (clock (ticks st)) (conn st) it' in
      mkRun c (if inserted then new_hits st ++ [it'] else new_hits st)
            (S (ticks st))
  end.

Definition process_items (kws : list string) (st : run_state)
    (all_items : list Item) : run_state :=
  fold_left (process_item kws) all_items st.

(** [try: all_items += fn() except Exception: print(...)] *)
Definition collect (all_items : list Item) (r : result (list Item))
  : list Item :=
  match r with
  | Ok l => all_items ++ l
  | Raise _ => all_items
  end.

(** The first loop of [main]: the three adapters in order. *)
Definition fetch_all (cfg : config) (net : network) : list Item :=
  let '(r1, n1) := fetch_businesswire select_anchors net (businesswire cfg) 0 in
  let '(r2, n2) := fetch_prnewswire select_anchors net (prnewswire cfg) n1 in
  let '(r3, _) := fetch_globenewswire_json parse_iso repr parse_json net
                    (globenewswire_json cfg) n2 in
  collect (collect (collect [] r1) r2) r3.

(** [main] up to the digest: the table after the run and the body handed
    to the mailer. *)
Definition main (cfg : config) (net : network) (today : string)
    (db : store) : store * string :=
  let st := process_items (keywords cfg) (mkRun db [] 0) (fetch_all cfg net) in
  (conn st, build_digest today (new_hits st)).

End Orchestrator.

(** ** Auxiliary notions the properties are stated with *)

(** An attempt of [safe_get] fails when the body of its [try] raises. *)
Definition failed (net : network) (url : string) (n : nat) : Prop :=
  exists e, attempt net url n = Raise e.

(** A sequence of calls of [upsert_new], each with its time and item; the
    table after them. *)
Definition upsert_all (db : store) (ops : list (string * Item)) : store :=
  fold_left (fun d op => (upsert_new op.1 d op.2).1) ops db.

(** De-duplication as the specification words it: an item stays exactly when
    its url is not among the urls of the items before it, [earlier]. *)
Fixpoint first_seen (earlier : list string) (l : list Item) : list Item :=
  match l with
  | [] => []
  | x :: r =>
      if bool_decide (url x ∈ earlier)
      then first_seen (earlier ++ [url x]) r
      else x :: first_seen (earlier ++ [url x]) r
  end.

(** The number of different urls in a list of items. *)
Definition distinct_urls (l : list Item) : nat :=
  size (list_to_set (url <$> l) : gset string).

(** The fields of a feed entry as [fetch_globenewswire_json] reads them from
    the bindings of the entry. *)
Definition field_title (kv : list (string * json)) : json :=
  por (dict_get kv "Title") (por (dict_get kv "title") (JStr "")).

Definition field_link (kv : list (string * json)) : json :=
  por (dict_get kv "Url") (por (dict_get kv "url")
    (por (dict_get kv "Link") (dict_get kv "link"))).

Definition field_published (kv : list (string * json)) : json :=
  por (dict_get kv "Published") (por (dict_get kv "published")
    (por (dict_get kv "PubDate") (dict_get kv "pubDate"))).

Definition field_teaser (kv : list (string * json)) : json :=
  por (dict_get kv "Teaser") (por (dict_get kv "teaser")
    (por (dict_get kv "Summary") (por (dict_get kv "summary") (JStr "")))).

(** What [main] makes of an item that matched: the item with [matched] and
    [score] set from the result of [match_keywords]. *)
Definition scored (kws : list string) (it : Item) : Item :=
  set_match it (match_keywords (item_text it) kws).1
               (match_keywords (item_text it) kws).2.

(** The item survives the filter [if not matched: continue]. *)
Definition survives (kws : list string) (it : Item) : Prop :=
  (match_keywords (item_text it) kws).1 <> [].

(** White space in a normalized string: every white-space character is a
    blank and no blank follows a blank; with [after_blank] the string does
    not begin with one either. *)
Fixpoint single_blanks (after_blank : bool) (s : string) : bool :=
  match s with
  | EmptyString => true
  | String c r =>
      if Py.isspace c
      then Ascii.eqb c " " && negb after_blank && single_blanks true r
      else single_blanks false r
  end.

(** The characters of a string that are not white space, in order. *)
Definition visible (s : string) : list ascii :=
  List.filter (fun c => negb (Py.isspace c)) (list_ascii_of_string s).

(** The list [lines] of [build_digest] at its [return]. *)
Definition digest_lines (today : string) (new_hits : list Item) : list string :=
  let lines := [digest_title today; ""] in
  match new_hits with
  | [] => lines ++ [no_matches]
  | _ => (fold_left render_step (sort_desc new_hits) (None, lines)).2
  end.

(** The invariant of the second loop of [main] with respect to the table
    [db0] it started from: the new hits have different urls, each on record
    now and not on record in [db0], and the rows of [db0] are still there. *)
Definition run_inv (db0 : store) (st : run_state) : Prop :=
  NoDup (url <$> new_hits st)
  /\ (forall h, h ∈ new_hits st ->
        is_Some (conn st !! url h) /\ db0 !! url h = None)
  /\ (forall u r, db0 !! u = Some r -> conn st !! u = Some r).

(** ** Concrete inputs *)

Definition not_modified : response := mkResponse 304 "".

Definition net_not_modified : network := fun _ _ => Responds not_modified.

Definition net_down_then_up (r : response) : network :=
  fun n _ => if (n <? 2)%nat then Fails (ConnectionError "timed out") else Responds r.

Definition acme_item : Item :=
  {| source := "BusinessWire";
     title := "Acme Corp to Buy Widget Inc";
     url := "https://www.businesswire.com/news/home/1/en/";
     published_at := None;
     snippet := None;
     matched := [];
     score := 0 |}.

Definition pr_no_suffix : anchor :=
  {| href := "/news-releases/acme-to-acquire-widget-302000000";
     anchor_text := "Acme to Acquire Widget in Definitive Agreement" |}.

Definition pr_release : anchor :=
  {| href := "/news-releases/acme-to-acquire-widget-302000000.html";
     anchor_text := "  Acme   to Acquire  Widget " |}.

Definition pr_twelve : anchor :=
  {| href := "/news-releases/acme-mergers-302000001.html";
     anchor_text := "Acme mergers" |}.

Definition bw_twelve : anchor :=
  {| href := "/news/home/20240501000001/en/";
     anchor_text := " Acme  mergers " |}.

Definition feed_entry (u : string) : json :=
  JObj [("Title", JStr "Acme to acquire Widget"); ("Url", JStr u)].

Definition no_date : json -> option string := fun _ => None.

Definition no_repr : json -> string := fun _ => "".

Definition dup_feed : json :=
  JObj [("Items", JArr [feed_entry "/news-release/2024/05/01/1/en/Acme.html";
                        feed_entry "/news-release/2024/05/01/1/en/Acme.html"])].

Definition dup_item : Item :=
  {| source := "GlobeNewswire";
     title := "Acme to acquire Widget";
     url := "https://www.globenewswire.com/news-release/2024/05/01/1/en/Acme.html";
     published_at := None;
     snippet := None;
     matched := [];
     score := 0 |}.

Definition entry_without_link : list (string * json) :=
  [("Title", JStr "Acme to acquire Widget"); ("Published", JStr "2024-05-01")].

Definition entry_bad_date : list (string * json) :=
  [("title", JStr " Acme  to acquire Widget ");
   ("link", JStr "https://www.globenewswire.com/news-release/1");
   ("pubDate", JStr "the day after tomorrow");
   ("summary", JStr "A definitive agreement was signed.")].

Definition noon : nat -> string := fun _ => "2024-05-01T12:00:00+00:00".

Definition hit (src ttl u : string) (pub : option string) (sc : Z) : Item :=
  {| source := src; title := ttl; url := u; published_at := pub;
     snippet := None;
     matched := if sc =? 5 then ["definitive agreement"] else ["merger"];
     score := sc |}.

Definition three_hits : list Item :=
  [ hit "PRNewswire" "Beta and Gamma announce merger" "https://pr/b" None 2;
    hit "GlobeNewswire" "Delta merger closes" "https://gn/d"
        (Some "2024-05-01T08:00:00") 2;
    hit "PRNewswire" "Acme signs definitive agreement" "https://pr/a" None 5 ].

Definition net_down : network := fun _ _ => Fails (ConnectionError "unreachable").

Definition sample_config : config :=
  {| keywords := ["definitive agreement"; "acquisition"; "merger"];
     businesswire := "https://www.businesswire.com/portal/site/home/news/";
     prnewswire := "https://www.prnewswire.com/news-releases/news-releases-list/";
     globenewswire_json := "https://www.globenewswire.com/JsonFeed" |}.


(** * Properties *)

(** ** Python strings *)

Lemma lower_char_idem (c : ascii) : Py.lower_char (Py.lower_char c) = Py.lower_char c.
Proof.
  destruct c as [[] [] [] [] [] [] [] []]; vm_compute; reflexivity.
Qed.

Lemma lower_idem (s : string) : Py.lower (Py.lower s) = Py.lower s.
Proof.
  induction s as [|c s IH]; simpl; [reflexivity|].
  now rewrite lower_char_idem, IH.
Qed.

Lemma lower_app (a b : string) : Py.lower (a +:+ b) = Py.lower a +:+ Py.lower b.
Proof.
  induction a as [|c a IH]; simpl; [reflexivity|]. now rewrite IH.
Qed.

Lemma contains_app_r (a b x : string) :
  Py.contains b x = true -> Py.contains (a +:+ b) x = true.
Proof.
  intros H. induction a as [|c a IH]; simpl; [exact H|].
  rewrite IH. apply orb_true_r.
Qed.

Lemma weight_lower (kw : string) : weight (Py.lower kw) = weight kw.
Proof. unfold weight. now rewrite lower_idem. Qed.

(** ** Keyword matcher *)

Lemma match_fold (t : string) (K m : list string) (sc : Z) :
  fold_left (match_step t) K (m, sc)
  = (m ++ List.filter (fun kw => Py.contains t (Py.lower kw)) K,
     sc + fold_right Z.add 0
            (List.map weight (List.filter (fun kw => Py.contains t (Py.lower kw)) K))).
Proof.
  revert m sc. induction K as [|kw K IH]; intros m sc; simpl.
  - now rewrite app_nil_r, Z.add_0_r.
  - unfold match_step at 2. destruct (Py.contains t (Py.lower kw)); simpl.
    + rewrite IH, <- app_assoc. simpl. f_equal. lia.
    + apply IH.
Qed.

Lemma match_keywords_eq (T : string) (K : list string) :
  match_keywords T K = (matched_spec T K, score_spec T K).
Proof.
  unfold match_keywords. rewrite match_fold. reflexivity.
Qed.

Lemma filter_map_lower (T : string) (K : list string) :
  List.map weight (matched_spec T (List.map Py.lower K))
  = List.map weight (matched_spec T K).
Proof.
  unfold matched_spec, occurs_in.
  induction K as [|kw K IH]; simpl; [reflexivity|].
  rewrite lower_idem. destruct (Py.contains _ _); simpl.
  - now rewrite weight_lower, IH.
  - exact IH.
Qed.

(** C2: the matcher returns the keywords that occur in the text and the sum
    of their weights, each entry of the keyword list counted once; neither
    the case of the text nor the case of a keyword changes the score. *)
Theorem match_keywords_weighted_sum (T : string) (K : list string) :
  match_keywords T K = (matched_spec T K, score_spec T K)
  /\ match_keywords (Py.lower T) K = match_keywords T K
  /\ (match_keywords T (List.map Py.lower K)).2 = (match_keywords T K).2
  /\ (forall kw,
        (Py.lower kw = "definitive agreement" /\ weight kw = 5)
        \/ (Py.lower kw = "acquisition" /\ weight kw = 3)
        \/ (Py.lower kw <> "definitive agreement"
            /\ Py.lower kw <> "acquisition" /\ weight kw = 2)).
Proof.
  split; [apply match_keywords_eq|]. split; [|split].
  - unfold match_keywords. now rewrite lower_idem.
  - rewrite !match_keywords_eq. simpl. unfold score_spec.
    now rewrite filter_map_lower.
  - intros kw. unfold weight.
    destruct (String.eqb_spec (Py.lower kw) "definitive agreement") as [E1|E1];
      [now left|].
    destruct (String.eqb_spec (Py.lower kw) "acquisition") as [E2|E2];
      [right; now left|].
    right. right. now repeat split.
Qed.

Example match_counts_once :
  match_keywords "Acquisition talks: ACQUISITION by acquisition" ["acquisition"]
  = (["acquisition"], 3).
Proof. reflexivity. Qed.

Example match_weights :
  match_keywords "Acme signs Definitive Agreement for the acquisition and merger"
                 ["merger"; "Definitive agreement"; "tender offer"; "Acquisition"]
  = (["merger"; "Definitive agreement"; "Acquisition"], 10).
Proof. reflexivity. Qed.

(** ** Digest builder: no new hits *)

(** C9: without new hits the digest is the date header, an empty line and
    the fixed message, joined by line feeds. *)
Theorem build_digest_empty (today : string) :
  build_digest today []
  = digest_title today +:+ Py.nl +:+ Py.nl +:+ no_matches.
Proof. reflexivity. Qed.

(** ** The text of an item without snippet *)

(** C10: an item whose snippet is [None] is matched on its title followed by
    a blank and the word None, so a configured keyword that occurs in
    "none" when lowered is among the matched keywords of every such item. *)
Theorem none_snippet_matches (it : Item) (K : list string) (kw : string) :
  snippet it = None ->
  In kw K ->
  Py.contains "none" (Py.lower kw) = true ->
  item_text it = title it +:+ " None"
  /\ In kw (match_keywords (item_text it) K).1.
Proof.
  intros Hs Hin Hc. unfold item_text. rewrite Hs. split; [reflexivity|].
  rewrite match_keywords_eq. simpl. unfold matched_spec.
  apply filter_In. split; [exact Hin|].
  unfold occurs_in. rewrite lower_app.
  apply contains_app_r.
  change (Py.contains (" " +:+ "none") (Py.lower kw) = true).
  now apply contains_app_r.
Qed.

Lemma none_snippet_matches_witness :
  snippet acme_item = None
  /\ In "NONE" ["merger"; "NONE"]
  /\ Py.contains "none" (Py.lower "NONE") = true
  /\ item_text acme_item = title acme_item +:+ " None"
  /\ In "NONE" (match_keywords (item_text acme_item) ["merger"; "NONE"]).1.
Proof.
  split; [reflexivity|]. split; [simpl; auto|]. split; [reflexivity|].
  apply (none_snippet_matches acme_item ["merger"; "NONE"] "NONE");
    [reflexivity | simpl; auto | reflexivity].
Defined.

(** ** Seen-item store *)

Lemma upsert_new_keeps (now : string) (db : store) (it : Item) (u : string) (r : Row) :
  db !! u = Some r -> (upsert_new now db it).1 !! u = Some r.
Proof.
  intros H. unfold upsert_new.
  destruct (db !! url it) eqn:E; simpl; [exact H|].
  rewrite lookup_insert_ne; [exact H|]. congruence.
Qed.

Lemma upsert_all_keeps (ops : list (string * Item)) (db : store) (u : string) (r : Row) :
  db !! u = Some r -> upsert_all db ops !! u = Some r.
Proof.
  revert db. induction ops as [|op ops IH]; intros db H; simpl; [exact H|].
  apply IH. now apply upsert_new_keeps.
Qed.

Lemma upsert_new_present (now : string) (db : store) (it : Item) (r : Row) :
  db !! url it = Some r -> upsert_new now db it = (db, false).
Proof. intros H. unfold upsert_new. now rewrite H. Qed.

(** C4: the first insert of a url reports [True] and adds exactly one row,
    the row of the item; after it, whatever else is inserted in between,
    every insert of an item with this url reports [False] and leaves the
    table, and with it the stored row, as it is. *)
Theorem upsert_new_idempotent (now : string) (db : store) (it : Item) :
  db !! url it = None ->
  (upsert_new now db it).2 = true
  /\ size (upsert_new now db it).1 = S (size db)
  /\ (upsert_new now db it).1 !! url it = Some (row_of now it)
  /\ (forall u, u <> url it -> (upsert_new now db it).1 !! u = db !! u)
  /\ forall (ops : list (string * Item)) (now' : string) (it' : Item),
       url it' = url it ->
       let db' := upsert_all (upsert_new now db it).1 ops in
       upsert_new now' db' it' = (db', false)
       /\ db' !! url it = Some (row_of now it).
Proof.
  intros H. unfold upsert_new at 1 2 3 4 5 6. rewrite H. simpl.
  split; [reflexivity|]. split; [now apply map_size_insert_None|].
  split; [apply lookup_insert_eq|].
  split; [intros u Hu; now apply lookup_insert_ne|].
  intros ops now' it' Hurl.
  assert (Hrow : upsert_all (<[url it:=row_of now it]> db) ops !! url it
                 = Some (row_of now it)).
  { apply upsert_all_keeps, lookup_insert_eq. }
  split; [|exact Hrow].
  apply upsert_new_present with (r := row_of now it). now rewrite Hurl.
Qed.

Lemma upsert_new_idempotent_witness :
  (∅ : store) !! url acme_item = None
  /\ (upsert_new "2024-05-01T06:00:00+00:00" ∅ acme_item).2 = true
  /\ upsert_new "2024-05-02T06:00:00+00:00"
       (upsert_new "2024-05-01T06:00:00+00:00" ∅ acme_item).1 acme_item
     = ((upsert_new "2024-05-01T06:00:00+00:00" ∅ acme_item).1, false).
Proof.
  split; [apply lookup_empty|].
  destruct (upsert_new_idempotent "2024-05-01T06:00:00+00:00" ∅ acme_item
              (lookup_empty _)) as (H1 & _ & _ & _ & H5).
  split; [exact H1|].
  exact (proj1 (H5 [] "2024-05-02T06:00:00+00:00" acme_item eq_refl)).
Defined.

(** ** Fetch client *)

Lemma attempt_failed_iff (net : network) (url : string) (m : nat) :
  failed net url m <->
  (exists e, net m url = Fails e)
  \/ (exists r, net m url = Responds r /\ 400 <= status_code r < 600).
Proof.
  unfold failed, attempt, raise_for_status. split.
  - intros [e He]. destruct (net m url) as [r|e']; [right|left; eauto].
    exists r. split; [reflexivity|].
    destruct (400 <=? status_code r) eqn:E1; destruct (status_code r <? 600) eqn:E2;
      simpl in He; try discriminate. lia.
  - intros [[e He]|(r & Hr & Hs)]; rewrite ?He, ?Hr; [eauto|].
    replace (400 <=? status_code r) with true by (symmetry; apply Z.leb_le; lia).
    replace (status_code r <? 600) with true by (symmetry; apply Z.ltb_lt; lia).
    simpl. eauto.
Qed.

Lemma attempt_ok (net : network) (url : string) (m : nat) (r : response) :
  attempt net url m = Ok r ->
  net m url = Responds r /\ ~ (400 <= status_code r < 600).
Proof.
  unfold attempt, raise_for_status. destruct (net m url) as [r'|e]; [|discriminate].
  destruct (400 <=? status_code r') eqn:E1; destruct (status_code r' <? 600) eqn:E2;
    simpl; try discriminate; intros [= <-]; (split; [reflexivity|lia]).
Qed.

(** C7 as the code has it: at most three requests; an attempt fails on a
    transport error or a status of 400..599; the response of the first
    attempt that does not fail is returned; after three failed attempts the
    error of the third is raised. *)
Theorem safe_get_policy (net : network) (url : string) (n : nat) :
  (forall m, failed net url m <->
     (exists e, net m url = Fails e)
     \/ (exists r, net m url = Responds r /\ 400 <= status_code r < 600))
  /\ ((exists k r, (k < 3)%nat
         /\ (forall j, (j < k)%nat -> failed net url (n + j))
         /\ net (n + k)%nat url = Responds r
         /\ ~ (400 <= status_code r < 600)
         /\ safe_get net url n = (Ok r, S (n + k)))
      \/ (exists e, (forall j, (j < 3)%nat -> failed net url (n + j))
            /\ attempt net url (n + 2) = Raise e
            /\ safe_get net url n = (Raise e, (n + 3)%nat))).
Proof.
  split; [intros m; apply attempt_failed_iff|].
  unfold safe_get. simpl.
  destruct (attempt net url n) as [r0|e0] eqn:E0.
  { left. exists 0%nat, r0. rewrite Nat.add_0_r.
    destruct (attempt_ok _ _ _ _ E0). repeat split; auto; intros; lia. }
  destruct (attempt net url (S n)) as [r1|e1] eqn:E1.
  { left. exists 1%nat, r1. replace (n + 1)%nat with (S n) by lia.
    destruct (attempt_ok _ _ _ _ E1). repeat split; auto.
    intros j Hj. replace (n + j)%nat with n by lia. now exists e0. }
  destruct (attempt net url (S (S n))) as [r2|e2] eqn:E2.
  { left. exists 2%nat, r2. replace (n + 2)%nat with (S (S n)) by lia.
    destruct (attempt_ok _ _ _ _ E2). repeat split; auto.
    intros j Hj. destruct j as [|[|j]]; [| |lia].
    - rewrite Nat.add_0_r. now exists e0.
    - replace (n + 1)%nat with (S n) by lia. now exists e1. }
  right. exists e2. replace (n + 2)%nat with (S (S n)) by lia.
  replace (n + 3)%nat with (S (S (S n))) by lia. repeat split; auto.
  intros j Hj. destruct j as [|[|[|j]]]; [| | |lia].
  - rewrite Nat.add_0_r. now exists e0.
  - replace (n + 1)%nat with (S n) by lia. now exists e1.
  - replace (n + 2)%nat with (S (S n)) by lia. now exists e2.
Qed.

(** C7 as stated fails: a response with status 304 is not in the 2xx class,
    yet the first attempt that receives it succeeds and [safe_get] returns
    it. *)
Lemma safe_get_returns_not_modified :
  ~ (200 <= status_code not_modified < 300)
  /\ ~ failed net_not_modified "https://www.prnewswire.com/news-releases/" 0
  /\ safe_get net_not_modified "https://www.prnewswire.com/news-releases/" 0
     = (Ok not_modified, 1%nat).
Proof.
  split; [simpl; lia|]. split; [|reflexivity].
  intros [e He]. discriminate He.
Qed.

Example safe_get_third_attempt :
  safe_get (net_down_then_up (mkResponse 200 "ok")) "https://example.org" 0
  = (Ok (mkResponse 200 "ok"), 3%nat).
Proof. reflexivity. Qed.

Example safe_get_last_error :
  safe_get (fun n _ => Responds (mkResponse (500 + Z.of_nat n) "")) "https://example.org" 0
  = (Raise (HTTPError 502), 3%nat).
Proof. reflexivity. Qed.

(** ** HTML adapters: which anchors are kept *)

Lemma dedupe_single (it : Item) : dedupe [it] = [it].
Proof.
  unfold dedupe, dedupe_step. simpl.
  destruct (decide (url it ∈ (∅ : gset string))) as [H|H]; [|reflexivity].
  exfalso. revert H. apply not_elem_of_empty.
Qed.

Lemma truthy_length (s : string) :
  negb (Py.truthy s) || (String.length s <? 12)%nat = (String.length s <? 12)%nat.
Proof. destruct s; reflexivity. Qed.

(** What the two loops keep: BusinessWire exactly the anchors whose href
    contains its marker and whose normalized text has at least 12
    characters; PRNewswire an anchor whose href contains its marker and ends
    in .html when the normalized text has more than 12 characters, and no
    anchor whose href lacks the marker or the suffix. *)
Lemma html_adapters_keep (a : anchor) :
  let text := normalize_whitespace (anchor_text a) in
  businesswire_anchor a
  = (if Py.contains (href a) "/news/home/" && (12 <=? String.length text)%nat
     then [html_item "BusinessWire" "https://www.businesswire.com" a text]
     else [])
  /\ businesswire_items [a] = businesswire_anchor a
  /\ prnewswire_items [a] = prnewswire_anchor a
  /\ (Py.contains (href a) "/news-releases/" = true ->
      Py.endswith (href a) ".html" = true ->
      (12 < String.length text)%nat ->
      prnewswire_anchor a
      = [html_item "PRNewswire" "https://www.prnewswire.com" a text])
  /\ (Py.contains (href a) "/news-releases/" = false
      \/ Py.endswith (href a) ".html" = false ->
      prnewswire_anchor a = []).
Proof.
  intros text. split.
  { unfold businesswire_anchor. fold text. rewrite truthy_length.
    destruct (Nat.ltb_spec (String.length text) 12) as [H|H].
    - replace (12 <=? String.length text)%nat with false
        by (symmetry; apply Nat.leb_gt; lia).
      now rewrite andb_false_r.
    - replace (12 <=? String.length text)%nat with true
        by (symmetry; apply Nat.leb_le; lia).
      now rewrite andb_true_r. }
  split.
  { unfold businesswire_items. simpl. rewrite app_nil_r.
    unfold businesswire_anchor.
    destruct (_ || _); [reflexivity|].
    destruct (Py.contains _ _); [|reflexivity]. now rewrite dedupe_single. }
  split.
  { unfold prnewswire_items. simpl. rewrite app_nil_r.
    unfold prnewswire_anchor.
    destruct (_ && _); [|reflexivity]. now rewrite dedupe_single. }
  split.
  - intros H1 H2 H3. unfold prnewswire_anchor. fold text. rewrite H1, H2.
    replace (12 <? String.length text)%nat with true
      by (symmetry; apply Nat.ltb_lt; lia).
    reflexivity.
  - intros [H|H]; unfold prnewswire_anchor; rewrite H; simpl;
      [reflexivity | now rewrite andb_false_r].
Qed.

Lemma html_adapters_keep_witness :
  Py.contains (href pr_release) "/news-releases/" = true
  /\ Py.endswith (href pr_release) ".html" = true
  /\ (12 < String.length (normalize_whitespace (anchor_text pr_release)))%nat
  /\ prnewswire_anchor pr_release
     = [html_item "PRNewswire" "https://www.prnewswire.com" pr_release
          (normalize_whitespace (anchor_text pr_release))]
  /\ (Py.contains (href pr_no_suffix) "/news-releases/" = false
      \/ Py.endswith (href pr_no_suffix) ".html" = false)
  /\ prnewswire_anchor pr_no_suffix = [].
Proof.
  split; [reflexivity|]. split; [reflexivity|]. split; [vm_compute; lia|].
  split.
  - apply (proj1 (proj2 (proj2 (proj2 (html_adapters_keep pr_release)))));
      [reflexivity | reflexivity | vm_compute; lia].
  - split; [right; reflexivity|].
    apply (proj2 (proj2 (proj2 (proj2 (html_adapters_keep pr_no_suffix))))).
    right. reflexivity.
Defined.

(** PRNewswire asks for the suffix .html besides the marker. *)
Lemma prnewswire_drops_without_suffix :
  Py.contains (href pr_no_suffix) "/news-releases/" = true
  /\ (12 <= String.length (normalize_whitespace (anchor_text pr_no_suffix)))%nat
  /\ prnewswire_items [pr_no_suffix] = [].
Proof.
  split; [reflexivity|]. split; [vm_compute; lia|reflexivity].
Qed.

Example normalize_release_title :
  normalize_whitespace (anchor_text pr_release) = "Acme to Acquire Widget".
Proof. reflexivity. Qed.

(** C3 at the boundary: an anchor of a PRNewswire page whose href holds the
    marker and the suffix and whose normalized text has exactly 12
    characters gives no item, the test of [fetch_prnewswire] being
    [len(title) > 12]; [fetch_businesswire] keeps an anchor with the same
    text. *)
Theorem prnewswire_drops_twelve :
  Py.contains (href pr_twelve) "/news-releases/" = true
  /\ Py.endswith (href pr_twelve) ".html" = true
  /\ String.length (normalize_whitespace (anchor_text pr_twelve)) = 12%nat
  /\ prnewswire_items [pr_twelve] = []
  /\ String.length (normalize_whitespace (anchor_text bw_twelve)) = 12%nat
  /\ List.map title (businesswire_items [bw_twelve]) = ["Acme mergers"].
Proof. repeat split; reflexivity. Qed.

(** ** Adapters: de-duplication and cap *)

Lemma dedupe_fold (l : list Item) (seen : gset string) (earlier : list string)
    (uniq : list Item) :
  (forall u, u ∈ seen <-> u ∈ earlier) ->
  (fold_left dedupe_step l (seen, uniq)).2 = uniq ++ first_seen earlier l.
Proof.
  revert seen earlier uniq.
  induction l as [|x r IH]; intros seen earlier uniq Hse; simpl.
  - now rewrite app_nil_r.
  - assert (Hnext : forall u, u ∈ {[url x]} ∪ seen <-> u ∈ earlier ++ [url x]).
    { intros u. rewrite elem_of_union, elem_of_singleton, elem_of_app,
        elem_of_cons, Hse. split; intros [H|H]; auto.
      destruct H as [H|H]; [auto|]. inversion H. }
    unfold dedupe_step at 2. simpl.
    destruct (decide (url x ∈ seen)) as [Hin|Hnin].
    + rewrite bool_decide_eq_true_2 by (now apply Hse).
      apply IH. intros u. rewrite elem_of_app, elem_of_cons, <- Hse.
      split; [auto|]. intros [H|[->|H]]; auto. inversion H.
    + rewrite bool_decide_eq_false_2 by (now rewrite <- Hse).
      rewrite (IH _ (earlier ++ [url x])) by exact Hnext.
      now rewrite <- app_assoc.
Qed.

Lemma dedupe_first_seen (l : list Item) : dedupe l = first_seen [] l.
Proof.
  unfold dedupe. rewrite (dedupe_fold l ∅ [] []); [reflexivity|].
  intros u. split; intros H; [now apply not_elem_of_empty in H | inversion H].
Qed.

Lemma first_seen_fresh (l : list Item) (earlier : list string) (it : Item) :
  it ∈ first_seen earlier l -> url it ∉ earlier.
Proof.
  revert earlier. induction l as [|x r IH]; intros earlier H; simpl in H.
  - inversion H.
  - assert (Hr : it ∈ first_seen (earlier ++ [url x]) r -> url it ∉ earlier).
    { intros Hi Hc. apply (IH _ Hi). apply elem_of_app. now left. }
    destruct (bool_decide (url x ∈ earlier)) eqn:E; [now apply Hr|].
    apply elem_of_cons in H as [->|H]; [|now apply Hr].
    now apply bool_decide_eq_false in E.
Qed.

Lemma first_seen_NoDup (l : list Item) (earlier : list string) :
  NoDup (url <$> first_seen earlier l).
Proof.
  revert earlier. induction l as [|x r IH]; intros earlier; simpl.
  - constructor.
  - destruct (bool_decide (url x ∈ earlier)); [apply IH|].
    rewrite fmap_cons. apply NoDup_cons. split; [|apply IH].
    intros Hin. apply list_elem_of_fmap in Hin as (it & Hu & Hit).
    apply first_seen_fresh in Hit. apply Hit.
    apply elem_of_app. right. rewrite Hu. apply elem_of_cons. now left.
Qed.

Lemma first_seen_sublist (l : list Item) (earlier : list string) :
  first_seen earlier l `sublist_of` l.
Proof.
  revert earlier. induction l as [|x r IH]; intros earlier; simpl.
  - constructor.
  - destruct (bool_decide (url x ∈ earlier)).
    + apply sublist_cons, IH.
    + apply sublist_skip, IH.
Qed.

Lemma first_seen_length (l : list Item) (earlier : list string) :
  length (first_seen earlier l)
  = size ((list_to_set (url <$> l) : gset string) ∖ list_to_set earlier).
Proof.
  revert earlier. induction l as [|x r IH]; intros earlier; cbn [first_seen].
  - rewrite fmap_nil, list_to_set_nil.
    assert (H0 : ∅ ∖ list_to_set earlier =@{gset string} ∅).
    { apply set_eq. intros u. rewrite elem_of_difference.
      split; [intros [H _]; exact H | intros H; now apply not_elem_of_empty in H]. }
    now rewrite H0, size_empty.
  - rewrite fmap_cons, list_to_set_cons.
    destruct (bool_decide (url x ∈ earlier)) eqn:E.
    + apply bool_decide_eq_true in E. rewrite IH. f_equal.
      apply set_eq. intros u.
      rewrite !elem_of_difference, elem_of_union, elem_of_singleton,
        !elem_of_list_to_set, elem_of_app, elem_of_cons.
      split.
      * intros [H1 H2]. split; [now right|]. intros H3. apply H2. now left.
      * intros [[->|H1] H2]; [contradiction|]. split; [exact H1|].
        intros [H3|[->|H3]]; [contradiction|contradiction|inversion H3].
    + apply bool_decide_eq_false in E. cbn [length]. rewrite IH.
      set (rest := (list_to_set (url <$> r) : gset string)
                   ∖ list_to_set (earlier ++ [url x])).
      assert (Heq : ({[url x]} ∪ list_to_set (url <$> r)) ∖ list_to_set earlier
                    =@{gset string} {[url x]} ∪ rest).
      { apply set_eq. intros u. unfold rest.
        rewrite elem_of_union, !elem_of_difference, elem_of_union,
          elem_of_singleton, !elem_of_list_to_set, elem_of_app, elem_of_cons.
        split.
        - intros [[->|H1] H2]; [now left|].
          destruct (decide (u = url x)) as [->|Hne]; [now left|].
          right. split; [exact H1|].
          intros [H3|[H3|H3]]; [contradiction|contradiction|inversion H3].
        - intros [->|[H1 H2]]; [split; [now left|exact E]|].
          split; [now right|]. intros H3. apply H2. now left. }
      rewrite Heq, size_union, size_singleton; [reflexivity|].
      intros u Hu Hr. apply elem_of_singleton in Hu as ->.
      unfold rest in Hr. apply elem_of_difference in Hr as [_ Hr].
      apply Hr. apply elem_of_list_to_set, elem_of_app. right.
      apply elem_of_cons. now left.
Qed.

Lemma dedupe_length (l : list Item) : length (dedupe l) = distinct_urls l.
Proof.
  rewrite dedupe_first_seen, first_seen_length. unfold distinct_urls.
  f_equal. apply set_eq. intros u. rewrite elem_of_difference.
  split; [now intros [H _]|]. intros H. split; [exact H|].
  rewrite elem_of_list_to_set. intros Hn. inversion Hn.
Qed.

Lemma capped_NoDup (cap : nat) (l : list Item) :
  NoDup (url <$> take cap (dedupe l)).
Proof.
  rewrite fmap_take, dedupe_first_seen.
  eapply sublist_NoDup; [apply first_seen_NoDup | apply sublist_take].
Qed.

Section JsonFeed.

Variable parse_iso : json -> option string.
Variable repr : json -> string.

Lemma globenewswire_loop_concat (raw : list json) (outs : list (list Item))
    (acc : list Item) :
  Forall2 (fun e o => globenewswire_entry parse_iso repr e = Ok o) raw outs ->
  globenewswire_loop parse_iso repr raw acc = Ok (acc ++ concat outs).
Proof.
  intros H. revert acc. induction H as [|e o raw outs He _ IH]; intros acc; simpl.
  - now rewrite app_nil_r.
  - rewrite He. simpl. rewrite IH. now rewrite <- app_assoc.
Qed.

Lemma globenewswire_items_concat (data : json) (raw : list json)
    (outs : list (list Item)) :
  raw_items_of data = JArr raw ->
  Forall2 (fun e o => globenewswire_entry parse_iso repr e = Ok o) raw outs ->
  globenewswire_items parse_iso repr data = Ok (take 60 (concat outs)).
Proof.
  intros Hraw H. unfold globenewswire_items. rewrite Hraw.
  destruct H as [|e o raw outs He H]; [reflexivity|]. cbn [truthy negb iterate bind].
  now rewrite (globenewswire_loop_concat (e :: raw) (o :: outs) [])
    by (now constructor).
Qed.

End JsonFeed.

(** C1 as the code has it: the two HTML adapters return the first 50 (60)
    of their candidate items in first-seen order with later items of an
    already met url removed, so urls are pairwise distinct and the number
    returned is the smaller of the cap and the number of different urls;
    the JSON adapter returns the first 60 of the items its entries give, in
    feed order, and removes nothing. *)
Theorem adapters_bounded (anchors : list anchor) :
  let bw := flat_map businesswire_anchor anchors in
  let pr := flat_map prnewswire_anchor anchors in
  businesswire_items anchors = take 50 (first_seen [] bw)
  /\ prnewswire_items anchors = take 60 (first_seen [] pr)
  /\ first_seen [] bw `sublist_of` bw
  /\ first_seen [] pr `sublist_of` pr
  /\ NoDup (url <$> businesswire_items anchors)
  /\ NoDup (url <$> prnewswire_items anchors)
  /\ length (businesswire_items anchors) = Nat.min 50 (distinct_urls bw)
  /\ length (prnewswire_items anchors) = Nat.min 60 (distinct_urls pr)
  /\ forall parse_iso repr (data : json) (raw : list json) (outs : list (list Item)),
       raw_items_of data = JArr raw ->
       Forall2 (fun e o => globenewswire_entry parse_iso repr e = Ok o) raw outs ->
       globenewswire_items parse_iso repr data = Ok (take 60 (concat outs))
       /\ length (take 60 (concat outs)) = Nat.min 60 (length (concat outs)).
Proof.
  intros bw pr. unfold businesswire_items, prnewswire_items. fold bw pr.
  repeat split.
  - now rewrite dedupe_first_seen.
  - now rewrite dedupe_first_seen.
  - apply first_seen_sublist.
  - apply first_seen_sublist.
  - apply capped_NoDup.
  - apply capped_NoDup.
  - now rewrite length_take, dedupe_length.
  - now rewrite length_take, dedupe_length.
  - now apply globenewswire_items_concat with (raw := raw).
  - apply length_take.
Qed.

Lemma adapters_bounded_witness :
  raw_items_of dup_feed
  = JArr [feed_entry "/news-release/2024/05/01/1/en/Acme.html";
          feed_entry "/news-release/2024/05/01/1/en/Acme.html"]
  /\ Forall2 (fun e o => globenewswire_entry no_date no_repr e = Ok o)
       [feed_entry "/news-release/2024/05/01/1/en/Acme.html";
        feed_entry "/news-release/2024/05/01/1/en/Acme.html"]
       [[dup_item]; [dup_item]]
  /\ globenewswire_items no_date no_repr dup_feed
     = Ok (take 60 (concat [[dup_item]; [dup_item]])).
Proof.
  assert (H1 : raw_items_of dup_feed
    = JArr [feed_entry "/news-release/2024/05/01/1/en/Acme.html";
            feed_entry "/news-release/2024/05/01/1/en/Acme.html"])
    by reflexivity.
  assert (H2 : Forall2 (fun e o => globenewswire_entry no_date no_repr e = Ok o)
       [feed_entry "/news-release/2024/05/01/1/en/Acme.html";
        feed_entry "/news-release/2024/05/01/1/en/Acme.html"]
       [[dup_item]; [dup_item]])
    by (repeat constructor).
  split; [exact H1|]. split; [exact H2|].
  destruct (adapters_bounded []) as (_ & _ & _ & _ & _ & _ & _ & _ & H).
  exact (proj1 (H no_date no_repr dup_feed _ _ H1 H2)).
Defined.

Example businesswire_same_link_sixty_times :
  length (flat_map businesswire_anchor (replicate 60 bw_twelve)) = 60%nat
  /\ length (businesswire_items (replicate 60 bw_twelve)) = 1%nat.
Proof. split; vm_compute; reflexivity. Qed.

(** C1 as stated fails for the JSON adapter: two entries with the same link
    give two items with the same url. *)
Lemma globenewswire_keeps_duplicate_urls :
  globenewswire_items no_date no_repr dup_feed = Ok [dup_item; dup_item]
  /\ ~ NoDup (url <$> [dup_item; dup_item]).
Proof.
  split; [reflexivity|].
  intros H. apply NoDup_cons in H as [H _]. apply H, elem_of_cons. now left.
Qed.

(** ** JSON adapter: skipped entries and unparsable dates *)

Section JsonEntries.

Variable parse_iso : json -> option string.
Variable repr : json -> string.

Lemma globenewswire_entry_fields (kv : list (string * json)) :
  globenewswire_entry parse_iso repr (JObj kv)
  = (let! title := normalize_whitespace_json (field_title kv) in
     if negb (Py.truthy title) || negb (truthy (field_link kv)) then Ok []
     else
       let! snip := normalize_whitespace_json (field_teaser kv) in
       Ok [ {| source := "GlobeNewswire";
               title := title;
               url := if Py.startswith (str repr (field_link kv)) "http"
                      then str repr (field_link kv)
                      else "https://www.globenewswire.com" +:+ str repr (field_link kv);
               published_at := if truthy (field_published kv)
                               then parse_iso (field_published kv) else None;
               snippet := if Py.truthy snip then Some snip else None;
               matched := [];
               score := 0 |} ]).
Proof. reflexivity. Qed.



End JsonEntries.



Example globenewswire_bad_date_item :
  globenewswire_items no_date no_repr
    (JArr [JObj entry_without_link; JObj entry_bad_date])
  = Ok [ {| source := "GlobeNewswire";
            title := "Acme to acquire Widget";
            url := "https://www.globenewswire.com/news-release/1";
            published_at := None;
            snippet := Some "A definitive agreement was signed.";
            matched := [];
            score := 0 |} ].
Proof. reflexivity. Qed.

(** ** Orchestrator: only matched items reach the store and the digest *)

Section Filtering.

Variable clock : nat -> string.
Variable kws : list string.

Lemma process_item_skip (st : run_state) (it : Item) :
  (match_keywords (item_text it) kws).1 = [] ->
  process_item clock kws st it = mkRun (conn st) (new_hits st) (S (ticks st)).
Proof.
  intros H. unfold process_item.
  destruct (match_keywords (item_text it) kws) as [m sc]. simpl in H.
  now rewrite H.
Qed.

Lemma process_item_keep (st : run_state) (it : Item) :
  survives kws it ->
  process_item clock kws st it
  = let r := upsert_new (clock (ticks st)) (conn st) (scored kws it) in
    mkRun r.1 (if r.2 then new_hits st ++ [scored kws it] else new_hits st)
          (S (ticks st)).
Proof.
  unfold survives, scored, process_item.
  destruct (match_keywords (item_text it) kws) as [m sc]. simpl.
  intros H. destruct m as [|kw m]; [contradiction|].
  now destruct (upsert_new _ _ _).
Qed.

Lemma survives_dec (it : Item) :
  (match_keywords (item_text it) kws).1 = [] \/ survives kws it.
Proof.
  unfold survives. destruct ((match_keywords (item_text it) kws).1);
    [now left | now right].
Qed.

Lemma process_items_new_hits (l : list Item) (st : run_state) (h : Item) :
  h ∈ new_hits (process_items clock kws st l) ->
  h ∈ new_hits st
  \/ exists it, it ∈ l /\ survives kws it /\ h = scored kws it.
Proof.
  revert st. induction l as [|it l IH]; intros st H; simpl in H; [now left|].
  apply IH in H as [H|(it' & Hin & Hs & ->)].
  - destruct (survives_dec it) as [Hno|Hyes].
    + rewrite process_item_skip in H by exact Hno. now left.
    + rewrite process_item_keep in H by exact Hyes. simpl in H.
      destruct (upsert_new _ _ _).2; [|now left].
      apply elem_of_app in H as [H|H]; [now left|].
      apply list_elem_of_singleton in H as ->.
      right. exists it. split; [apply elem_of_cons; now left|]. now split.
  - right. exists it'. split; [apply elem_of_cons; now right|]. now split.
Qed.

Lemma process_items_rows (l : list Item) (st : run_state) (u : string) (r : Row) :
  conn (process_items clock kws st l) !! u = Some r ->
  conn st !! u = Some r
  \/ exists it k, it ∈ l /\ survives kws it
                  /\ u = url it /\ r = row_of (clock k) (scored kws it).
Proof.
  revert st. induction l as [|it l IH]; intros st H; simpl in H; [now left|].
  apply IH in H as [H|(it' & k & Hin & Hs & Hu & Hr)].
  - destruct (survives_dec it) as [Hno|Hyes].
    + rewrite process_item_skip in H by exact Hno. now left.
    + rewrite process_item_keep in H by exact Hyes. simpl in H.
      unfold upsert_new in H.
      destruct (conn st !! url (scored kws it)) eqn:E; simpl in H; [now left|].
      destruct (decide (url (scored kws it) = u)) as [<-|Hne].
      * rewrite lookup_insert_eq in H. injection H as <-.
        right. exists it, (ticks st).
        split; [apply elem_of_cons; now left|]. now repeat split.
      * rewrite lookup_insert_ne in H by exact Hne. now left.
  - right. exists it', k. split; [apply elem_of_cons; now right|]. now repeat split.
Qed.

End Filtering.

Lemma html_item_unmatched (src base : string) (a : anchor) (text : string) :
  matched (html_item src base a text) = [].
Proof. reflexivity. Qed.

Lemma capped_elem_of (cap : nat) (cand : list Item) (it : Item) :
  it ∈ take cap (dedupe cand) -> it ∈ cand.
Proof.
  intros H. rewrite dedupe_first_seen in H.
  eapply elem_of_sublist; [|apply first_seen_sublist].
  eapply elem_of_sublist; [exact H|apply sublist_take].
Qed.

Lemma businesswire_items_unmatched (anchors : list anchor) (it : Item) :
  it ∈ businesswire_items anchors -> matched it = [].
Proof.
  intros H. apply capped_elem_of, list_elem_of_In, in_flat_map in H
    as (a & _ & H).
  unfold businesswire_anchor in H.
  destruct (_ || _); [destruct H|].
  destruct (Py.contains _ _); [|destruct H].
  destruct H as [<-|[]]. reflexivity.
Qed.

Lemma prnewswire_items_unmatched (anchors : list anchor) (it : Item) :
  it ∈ prnewswire_items anchors -> matched it = [].
Proof.
  intros H. apply capped_elem_of, list_elem_of_In, in_flat_map in H
    as (a & _ & H).
  unfold prnewswire_anchor in H.
  destruct (_ && _); [|destruct H].
  destruct H as [<-|[]]. reflexivity.
Qed.

Section Unmatched.

Variable parse_iso : json -> option string.
Variable repr : json -> string.

Lemma globenewswire_entry_unmatched (e : json) (out : list Item) (it : Item) :
  globenewswire_entry parse_iso repr e = Ok out -> it ∈ out -> matched it = [].
Proof.
  destruct e as [| | | | |kv]; try discriminate.
  rewrite globenewswire_entry_fields.
  destruct (normalize_whitespace_json (field_title kv)) as [t|]; [|discriminate].
  simpl. destruct (_ || _).
  - intros [= <-] H. inversion H.
  - destruct (normalize_whitespace_json (field_teaser kv)) as [sn|]; [|discriminate].
    simpl. intros [= <-] H. apply list_elem_of_singleton in H as ->. reflexivity.
Qed.

Lemma globenewswire_loop_unmatched (raw : list json) (acc items : list Item) :
  (forall it, it ∈ acc -> matched it = []) ->
  globenewswire_loop parse_iso repr raw acc = Ok items ->
  forall it, it ∈ items -> matched it = [].
Proof.
  revert acc. induction raw as [|e raw IH]; intros acc Hacc; simpl.
  - now intros [= <-].
  - destruct (globenewswire_entry parse_iso repr e) as [out|] eqn:He; [|discriminate].
    simpl. apply IH. intros it Hin. apply elem_of_app in Hin as [Hin|Hin].
    + now apply Hacc.
    + now apply (globenewswire_entry_unmatched e out).
Qed.

Lemma globenewswire_items_unmatched (data : json) (items : list Item) (it : Item) :
  globenewswire_items parse_iso repr data = Ok items ->
  it ∈ items -> matched it = [].
Proof.
  unfold globenewswire_items.
  destruct (negb (truthy (raw_items_of data))).
  - intros [= <-] H. inversion H.
  - destruct (iterate (raw_items_of data)) as [raw|]; [|discriminate]. simpl.
    destruct (globenewswire_loop parse_iso repr raw []) as [l|] eqn:El;
      [|discriminate].
    simpl. intros [= <-] H.
    apply (globenewswire_loop_unmatched raw [] l); [|exact El|].
    + intros ? Hn. inversion Hn.
    + eapply elem_of_sublist; [exact H|apply sublist_take].
Qed.

Variable select_anchors : string -> list anchor.
Variable parse_json : string -> result json.

Lemma collect_unmatched (acc : list Item) (r : result (list Item)) :
  (forall it, it ∈ acc -> matched it = []) ->
  (forall l it, r = Ok l -> it ∈ l -> matched it = []) ->
  forall it, it ∈ collect acc r -> matched it = [].
Proof.
  intros Hacc Hr it. destruct r as [l|e]; simpl; [|apply Hacc].
  intros H. apply elem_of_app in H as [H|H]; [now apply Hacc|].
  now apply (Hr l).
Qed.

Lemma fetch_all_unmatched (cfg : config) (net : network) (it : Item) :
  it ∈ fetch_all parse_iso repr select_anchors parse_json cfg net ->
  matched it = [].
Proof.
  unfold fetch_all, fetch_businesswire, fetch_prnewswire, fetch_globenewswire_json.
  destruct (safe_get net (businesswire cfg) 0) as [r1 n1].
  destruct (safe_get net (prnewswire cfg) n1) as [r2 n2].
  destruct (safe_get net (globenewswire_json cfg) n2) as [r3 n3].
  apply collect_unmatched; [apply collect_unmatched; [apply collect_unmatched|]|].
  - intros ? H. inversion H.
  - intros l x. destruct r1 as [r1|]; [|discriminate]. simpl.
    destruct (raise_for_status r1); [|discriminate]. simpl.
    intros [= <-]. apply businesswire_items_unmatched.
  - intros l x. destruct r2 as [r2|]; [|discriminate]. simpl.
    destruct (raise_for_status r2); [|discriminate]. simpl.
    intros [= <-]. apply prnewswire_items_unmatched.
  - intros l x. destruct r3 as [r3|]; [|discriminate]. simpl.
    destruct (raise_for_status r3); [|discriminate]. simpl.
    destruct (parse_json (body_text r3)) as [data|]; [|discriminate]. simpl.
    apply globenewswire_items_unmatched.
Qed.

End Unmatched.

(** ** Digest builder: order and section headers *)

Lemma string_compare_trans (s1 s2 s3 : string) :
  String.compare s1 s2 <> Lt -> String.compare s2 s3 <> Lt ->
  String.compare s1 s3 <> Lt.
Proof.
  revert s2 s3.
  induction s1 as [|c1 s1 IH]; intros [|c2 s2] [|c3 s3]; simpl; try easy.
  unfold Ascii.compare.
  destruct (N.compare_spec (N_of_ascii c1) (N_of_ascii c2));
    destruct (N.compare_spec (N_of_ascii c2) (N_of_ascii c3));
    destruct (N.compare_spec (N_of_ascii c1) (N_of_ascii c3));
    try lia; try easy.
  apply IH.
Qed.

Lemma string_ltb_false (a b : string) :
  String.ltb a b = false <-> String.compare a b <> Lt.
Proof. unfold String.ltb. destruct (String.compare a b); split; easy. Qed.

Lemma key_ge_trans (a b c : Item) : key_ge a b -> key_ge b c -> key_ge a c.
Proof.
  unfold key_ge, key_ltb, sort_key. simpl.
  destruct (Z.compare_spec (score a) (score b));
    destruct (Z.compare_spec (score b) (score c));
    destruct (Z.compare_spec (score a) (score c));
    try lia; try easy.
  rewrite !string_ltb_false. apply string_compare_trans.
Qed.

Lemma key_ltb_asym (a b : Item) :
  key_ltb (sort_key a) (sort_key b) = true -> key_ge b a.
Proof.
  unfold key_ge, key_ltb, sort_key. simpl.
  destruct (Z.compare_spec (score a) (score b));
    destruct (Z.compare_spec (score b) (score a));
    try lia; try easy.
  unfold String.ltb. rewrite (String.compare_antisym (default "" (published_at b))).
  now destruct (String.compare _ _).
Qed.

Lemma key_ge_iff (a b : Item) :
  key_ge a b <->
  score b < score a
  \/ (score b = score a
      /\ String.leb (default "" (published_at b)) (default "" (published_at a))
         = true).
Proof.
  unfold key_ge, key_ltb, sort_key, String.ltb, String.leb. simpl.
  rewrite (String.compare_antisym (default "" (published_at a))).
  destruct (Z.compare_spec (score a) (score b)) as [E|E|E].
  - destruct (String.compare _ _); simpl; split; try easy;
      try (intros [?|[? ?]]; try lia; easy); intros _; right; split; auto.
  - split; [easy|]. intros [?|[? ?]]; lia.
  - split; [intros _; left; lia|easy].
Qed.

Lemma insert_desc_perm (x : Item) (l : list Item) : insert_desc x l ≡ₚ x :: l.
Proof.
  induction l as [|y r IH]; simpl; [reflexivity|].
  destruct (key_ltb _ _); [|reflexivity].
  rewrite IH. apply Permutation_swap.
Qed.

Lemma sort_desc_perm (l : list Item) : sort_desc l ≡ₚ l.
Proof.
  induction l as [|x l IH]; simpl; [reflexivity|].
  now rewrite insert_desc_perm, IH.
Qed.

Lemma insert_desc_sorted (x : Item) (l : list Item) :
  StronglySorted key_ge l -> StronglySorted key_ge (insert_desc x l).
Proof.
  induction l as [|y r IH]; intros Hs; simpl.
  - repeat constructor.
  - apply StronglySorted_cons in Hs as [Hy Hr].
    destruct (key_ltb (sort_key x) (sort_key y)) eqn:E.
    + apply StronglySorted_cons. split; [|now apply IH].
      rewrite insert_desc_perm. constructor; [now apply key_ltb_asym|exact Hy].
    + apply StronglySorted_cons. split; [|now apply StronglySorted_cons].
      constructor; [exact E|].
      eapply Forall_impl; [exact Hy|]. intros z Hz.
      now apply key_ge_trans with y.
Qed.

Lemma sort_desc_sorted (l : list Item) : StronglySorted key_ge (sort_desc l).
Proof.
  induction l as [|x l IH]; simpl; [constructor|now apply insert_desc_sorted].
Qed.

Lemma string_compare_refl (a : string) : String.compare a a = Eq.
Proof.
  pose proof (String.compare_antisym a a) as H.
  destruct (String.compare a a); simpl in H; congruence.
Qed.

Lemma key_ltb_irrefl (k : Z * string) : key_ltb k k = false.
Proof.
  unfold key_ltb, String.ltb. now rewrite Z.compare_refl, string_compare_refl.
Qed.

Lemma insert_desc_stable (k : Z * string) (x : Item) (l : list Item) :
  List.filter (fun it => bool_decide (sort_key it = k)) (insert_desc x l)
  = List.filter (fun it => bool_decide (sort_key it = k)) (x :: l).
Proof.
  induction l as [|y r IH]; [reflexivity|]. cbn [insert_desc].
  destruct (key_ltb (sort_key x) (sort_key y)) eqn:E; [|reflexivity].
  cbn [List.filter] in *. rewrite IH.
  destruct (bool_decide_reflect (sort_key x = k)) as [Hx|Hx];
    destruct (bool_decide_reflect (sort_key y = k)) as [Hy|Hy];
    try reflexivity.
  rewrite Hx, Hy, key_ltb_irrefl in E. discriminate.
Qed.

Lemma sort_desc_stable (k : Z * string) (l : list Item) :
  List.filter (fun it => bool_decide (sort_key it = k)) (sort_desc l)
  = List.filter (fun it => bool_decide (sort_key it = k)) l.
Proof.
  induction l as [|x l IH]; [reflexivity|].
  cbn [sort_desc fold_right]. fold (sort_desc l).
  rewrite insert_desc_stable. cbn [List.filter]. now rewrite IH.
Qed.

Lemma render_fold (l : list Item) (prev : option string) (lines : list string) :
  (fold_left render_step l (prev, lines)).2 = lines ++ render_spec prev l.
Proof.
  revert prev lines.
  induction l as [|it r IH]; intros prev lines; cbn [fold_left render_spec].
  - now rewrite app_nil_r.
  - destruct (render_step (prev, lines) it) as [p' l'] eqn:Es.
    rewrite IH. unfold render_step in Es. cbn [fst snd] in Es.
    destruct (decide (Some (source it) = prev)) as [E|E];
      cbn [fst snd] in Es; injection Es as <- <-.
    + rewrite <- E. now rewrite <- app_assoc.
    + now rewrite <- !app_assoc.
Qed.

Lemma undated_before_dated (a b : Item) :
  undated a -> dated b -> score b = score a ->
  key_ltb (sort_key a) (sort_key b) = true.
Proof.
  intros Ha (d & Hb & Hd) Hsc. unfold key_ltb, sort_key. simpl.
  rewrite Hsc, Z.compare_refl, Hb. simpl.
  destruct Ha as [-> | ->]; simpl; now destruct d.
Qed.

(** C5: for a non-empty list of new hits the digest is the title, an empty
    line and the lines of the hits in the order of the descending sort by
    (score, published_at or ""): the sorted list holds the same items, each
    item is not smaller than every item after it (higher score, or equal
    score and a date string not smaller), items of equal key keep their
    order, and no dated item follows an undated one of its score; a section
    header stands in front of an item exactly when its source is not the
    source of the item before it (always in front of the first). *)
Theorem build_digest_sorted_grouped (today : string) (hits : list Item) :
  hits <> [] ->
  build_digest today hits
  = Py.join Py.nl ([digest_title today; ""] ++ render_spec None (sort_desc hits))
  /\ sort_desc hits ≡ₚ hits
  /\ StronglySorted key_ge (sort_desc hits)
  /\ (forall k,
        List.filter (fun it => bool_decide (sort_key it = k)) (sort_desc hits)
        = List.filter (fun it => bool_decide (sort_key it = k)) hits)
  /\ (forall a b,
        key_ge a b <->
        score b < score a
        \/ (score b = score a
            /\ String.leb (default "" (published_at b))
                          (default "" (published_at a)) = true))
  /\ (forall l1 a l2 b,
        sort_desc hits = l1 ++ a :: l2 -> b ∈ l2 ->
        score b = score a -> undated a -> ~ dated b).
Proof.
  intros Hne. split; [|split; [|split; [|split; [|split]]]].
  - unfold build_digest. destruct hits as [|h hits]; [contradiction|].
    now rewrite render_fold.
  - apply sort_desc_perm.
  - apply sort_desc_sorted.
  - intros k. apply sort_desc_stable.
  - apply key_ge_iff.
  - intros l1 a l2 b Heq Hin Hsc Ha Hb.
    pose proof (sort_desc_sorted hits) as Hs. rewrite Heq in Hs.
    apply StronglySorted_app_1_r, StronglySorted_cons in Hs as [Hall _].
    rewrite Forall_forall in Hall. specialize (Hall b Hin).
    unfold key_ge in Hall.
    now rewrite (undated_before_dated a b Ha Hb Hsc) in Hall.
Qed.

Lemma build_digest_sorted_grouped_witness :
  three_hits <> []
  /\ build_digest "2024-05-02" three_hits
     = Py.join Py.nl ([digest_title "2024-05-02"; ""]
                      ++ render_spec None (sort_desc three_hits)).
Proof.
  assert (H : three_hits <> []) by discriminate.
  split; [exact H|].
  exact (proj1 (build_digest_sorted_grouped "2024-05-02" three_hits H)).
Defined.

Example three_hits_sorted :
  List.map (fun it => (score it, source it, published_at it)) (sort_desc three_hits)
  = [ (5, "PRNewswire", None);
      (2, "GlobeNewswire", Some "2024-05-01T08:00:00");
      (2, "PRNewswire", None) ].
Proof. reflexivity. Qed.

Example three_hits_rendered :
  [digest_title "2024-05-02"; ""] ++ render_spec None (sort_desc three_hits)
  = [ digest_title "2024-05-02"; "";
      ""; "== PRNewswire ==";
      "- Acme signs definitive agreement"; "  https://pr/a";
      "  Matched: definitive agreement (score 5)";
      ""; "== GlobeNewswire ==";
      "- Delta merger closes"; "  https://gn/d";
      "  Published: 2024-05-01T08:00:00";
      "  Matched: merger (score 2)";
      ""; "== PRNewswire ==";
      "- Beta and Gamma announce merger"; "  https://pr/b";
      "  Matched: merger (score 2)" ].
Proof. reflexivity. Qed.

(** ** Orchestrator: what is stored and rendered *)

(** C6: an item for which the matcher returns no keyword leaves the table
    and the new hits as they are; every new hit of a run, every item the
    digest renders and every row the run adds to the table come from an
    item that survived the filter and carry its non-empty list of matched
    keywords; the items the adapters deliver carry no matched keyword
    before that; [main] stores and renders nothing else. *)
Theorem matched_iff_survived (clock : nat -> string) (kws : list string)
    (db : store) (all_items : list Item) :
  (forall st it,
     (match_keywords (item_text it) kws).1 = [] ->
     conn (process_item clock kws st it) = conn st
     /\ new_hits (process_item clock kws st it) = new_hits st)
  /\ (forall h,
        h ∈ new_hits (process_items clock kws (mkRun db [] 0) all_items) ->
        matched h <> []
        /\ exists it, it ∈ all_items /\ survives kws it /\ h = scored kws it)
  /\ (forall u r,
        conn (process_items clock kws (mkRun db [] 0) all_items) !! u = Some r ->
        db !! u = Some r
        \/ exists it k, it ∈ all_items /\ survives kws it /\ u = url it
                        /\ r = row_of (clock k) (scored kws it)
                        /\ matched (scored kws it) <> [])
  /\ (forall h,
        h ∈ sort_desc (new_hits (process_items clock kws (mkRun db [] 0) all_items)) ->
        matched h <> [])
  /\ (forall parse_iso repr select_anchors parse_json cfg net it,
        it ∈ fetch_all parse_iso repr select_anchors parse_json cfg net ->
        matched it = [])
  /\ (forall parse_iso repr select_anchors parse_json cfg net today,
        main parse_iso repr select_anchors parse_json clock cfg net today db
        = let st := process_items clock (keywords cfg) (mkRun db [] 0)
                      (fetch_all parse_iso repr select_anchors parse_json cfg net) in
          (conn st, build_digest today (new_hits st))).
Proof.
  split; [|split; [|split; [|split; [|split]]]]; [| | | | |reflexivity].
  - intros st it H. now rewrite process_item_skip.
  - intros h H. apply process_items_new_hits in H as [H|(it & Hin & Hs & ->)].
    + inversion H.
    + split; [exact Hs|]. now exists it.
  - intros u r H.
    apply process_items_rows in H as [H|(it & k & Hin & Hs & Hu & Hr)];
      [now left|].
    right. exists it, k.
    split; [exact Hin|]. split; [exact Hs|]. split; [exact Hu|].
    split; [exact Hr|exact Hs].
  - intros h H. rewrite sort_desc_perm in H.
    apply process_items_new_hits in H as [H|(it & Hin & Hs & ->)];
      [inversion H|exact Hs].
  - intros parse_iso repr sel pj cfg net it H.
    exact (fetch_all_unmatched parse_iso repr sel pj cfg net it H).
Qed.

Lemma matched_iff_survived_witness :
  (match_keywords (item_text acme_item) ["merger"]).1 = []
  /\ conn (process_item noon ["merger"] (mkRun ∅ [] 0) acme_item) = ∅
  /\ new_hits (process_item noon ["merger"] (mkRun ∅ [] 0) acme_item) = [].
Proof.
  split; [reflexivity|].
  apply (proj1 (matched_iff_survived noon ["merger"] ∅ [])
           (mkRun ∅ [] 0) acme_item).
  reflexivity.
Defined.

Example run_keeps_matching_item :
  new_hits (process_items noon ["merger"; "buy"] (mkRun ∅ [] 0)
              [acme_item; dup_item; acme_item])
  = [set_match acme_item ["buy"] 2].
Proof. reflexivity. Qed.

(** * Further properties of the code *)

(** ** [normalize_whitespace] *)

Lemma sub_spaces_single (b : bool) (s : string) :
  single_blanks b (Py.sub_spaces b s) = true.
Proof.
  revert b. induction s as [|c s IH]; intros b; [reflexivity|].
  cbn [Py.sub_spaces]. destruct (Py.isspace c) eqn:E.
  - destruct b; [apply IH|].
    cbn [single_blanks]. change (Py.isspace " ") with true. cbn. apply IH.
  - cbn [single_blanks]. rewrite E. apply IH.
Qed.

Lemma single_blanks_weaken (s : string) :
  single_blanks true s = true -> single_blanks false s = true.
Proof.
  destruct s as [|c s]; [reflexivity|]. cbn [single_blanks].
  destruct (Py.isspace c); [|auto].
  rewrite andb_false_r. discriminate.
Qed.

Lemma single_blanks_tail (b : bool) (c : ascii) (s : string) :
  single_blanks b (String c s) = true -> single_blanks false s = true.
Proof.
  cbn [single_blanks]. destruct (Py.isspace c); [|auto].
  intros H. apply andb_prop in H as [_ H]. now apply single_blanks_weaken.
Qed.

Lemma lstrip_single (s : string) :
  single_blanks false s = true -> single_blanks true (Py.lstrip s) = true.
Proof.
  induction s as [|c s IH]; [reflexivity|]. intros H.
  cbn [Py.lstrip]. destruct (Py.isspace c) eqn:E.
  - apply IH. now apply single_blanks_tail in H.
  - cbn [single_blanks] in *. now rewrite E in *.
Qed.

Lemma rstrip_single (b : bool) (s : string) :
  single_blanks b s = true -> single_blanks b (Py.rstrip s) = true.
Proof.
  revert b. induction s as [|c s IH]; intros b H; [reflexivity|].
  cbn [Py.rstrip].
  assert (Hr : forall b', single_blanks b' s = true ->
                          single_blanks b' (Py.rstrip s) = true) by (intros; now apply IH).
  destruct (Py.rstrip s) as [|c' r'] eqn:Es.
  - destruct (Py.isspace c) eqn:E; [reflexivity|].
    cbn [single_blanks]. now rewrite E.
  - cbn [single_blanks] in H |- *. destruct (Py.isspace c).
    + apply andb_prop in H as [H1 H2]. rewrite H1. cbn [andb].
      now apply (Hr true).
    + now apply (Hr false).
Qed.

Lemma lstrip_fixed (s : string) :
  single_blanks true s = true -> Py.lstrip s = s.
Proof.
  destruct s as [|c s]; [reflexivity|]. cbn [single_blanks Py.lstrip].
  destruct (Py.isspace c); [|reflexivity].
  rewrite andb_false_r. discriminate.
Qed.

Lemma rstrip_idem (s : string) : Py.rstrip (Py.rstrip s) = Py.rstrip s.
Proof.
  induction s as [|c s IH]; [reflexivity|]. cbn [Py.rstrip].
  destruct (Py.rstrip s) as [|c' r'] eqn:Es.
  - destruct (Py.isspace c) eqn:E; [reflexivity|].
    cbn [Py.rstrip]. now rewrite E.
  - cbn [Py.rstrip] in IH |- *. cbn [Py.rstrip]. now rewrite IH.
Qed.

Lemma sub_spaces_fixed (b : bool) (s : string) :
  single_blanks b s = true -> Py.sub_spaces b s = s.
Proof.
  revert b. induction s as [|c s IH]; intros b H; [reflexivity|].
  cbn [single_blanks Py.sub_spaces] in *. destruct (Py.isspace c).
  - apply andb_prop in H as [H H3]. apply andb_prop in H as [H1 H2].
    destruct b; [discriminate|].
    apply Ascii.eqb_eq in H1. subst c. now rewrite (IH true).
  - now rewrite (IH false).
Qed.

Lemma normalize_single (s : string) :
  single_blanks true (normalize_whitespace s) = true.
Proof.
  unfold normalize_whitespace, Py.strip.
  apply rstrip_single, lstrip_single, sub_spaces_single.
Qed.

Lemma normalize_fixed (t : string) :
  single_blanks true t = true -> Py.rstrip t = t -> normalize_whitespace t = t.
Proof.
  intros H1 H2. unfold normalize_whitespace, Py.strip.
  rewrite sub_spaces_fixed by (now apply single_blanks_weaken).
  now rewrite lstrip_fixed.
Qed.

Lemma normalize_rstrip_fixed (s : string) :
  Py.rstrip (normalize_whitespace s) = normalize_whitespace s.
Proof. unfold normalize_whitespace, Py.strip. apply rstrip_idem. Qed.

(** X1: normalizing twice is normalizing once. *)
Theorem normalize_whitespace_idempotent (s : string) :
  normalize_whitespace (normalize_whitespace s) = normalize_whitespace s.
Proof.
  apply normalize_fixed; [apply normalize_single|apply normalize_rstrip_fixed].
Qed.

Lemma single_blanks_only_blank (b : bool) (s : string) (c : ascii) :
  single_blanks b s = true ->
  In c (list_ascii_of_string s) -> Py.isspace c = true -> c = " "%char.
Proof.
  revert b. induction s as [|d s IH]; intros b H Hin Hc; [destruct Hin|].
  cbn [single_blanks] in H. destruct Hin as [->|Hin].
  - rewrite Hc in H. apply andb_prop in H as [H _].
    apply andb_prop in H as [H _]. now apply Ascii.eqb_eq in H.
  - destruct (Py.isspace d).
    + apply andb_prop in H as [_ H]. now apply (IH true).
    + now apply (IH false).
Qed.

Lemma single_blanks_no_leading (s : string) :
  single_blanks true s = true -> Py.startswith s " " = false.
Proof.
  destruct s as [|c s]; [reflexivity|]. cbn [single_blanks Py.startswith].
  destruct (Ascii.eqb_spec " " c) as [<-|Hne].
  - change (Py.isspace " ") with true. rewrite andb_false_r. discriminate.
  - reflexivity.
Qed.

Lemma single_blanks_no_double (b : bool) (s : string) :
  single_blanks b s = true -> Py.contains s "  " = false.
Proof.
  revert b. induction s as [|c s IH]; intros b H; [reflexivity|].
  cbn [Py.contains]. apply orb_false_iff. split.
  - cbn [Py.startswith]. destruct (Ascii.eqb_spec " " c) as [<-|Hne]; [|reflexivity].
    cbn [single_blanks] in H. change (Py.isspace " ") with true in H.
    apply andb_prop in H as [_ H]. cbn [andb].
    now apply single_blanks_no_leading in H.
  - cbn [single_blanks] in H. destruct (Py.isspace c).
    + apply andb_prop in H as [_ H]. now apply (IH true).
    + now apply (IH false).
Qed.

(** X2: in a normalized string the only white-space character is the blank,
    no two blanks are adjacent, and there is no white space at either
    end. *)
Theorem normalize_whitespace_shape (s : string) :
  (forall c, In c (list_ascii_of_string (normalize_whitespace s)) ->
             Py.isspace c = true -> c = " "%char)
  /\ Py.contains (normalize_whitespace s) "  " = false
  /\ Py.lstrip (normalize_whitespace s) = normalize_whitespace s
  /\ Py.rstrip (normalize_whitespace s) = normalize_whitespace s.
Proof.
  pose proof (normalize_single s) as H.
  split; [intros c; now apply single_blanks_only_blank with (b := true)|].
  split; [now apply single_blanks_no_double with (b := true)|].
  split; [now apply lstrip_fixed|apply normalize_rstrip_fixed].
Qed.

Lemma normalize_whitespace_shape_witness :
  In " "%char (list_ascii_of_string (normalize_whitespace (anchor_text pr_release)))
  /\ Py.isspace " " = true
  /\ " "%char = " "%char.
Proof.
  split; [vm_compute; tauto|]. split; [reflexivity|].
  apply (proj1 (normalize_whitespace_shape (anchor_text pr_release)));
    [vm_compute; tauto|reflexivity].
Defined.

Lemma visible_sub_spaces (b : bool) (s : string) :
  visible (Py.sub_spaces b s) = visible s.
Proof.
  unfold visible. revert b. induction s as [|c s IH]; intros b; [reflexivity|].
  cbn [Py.sub_spaces list_ascii_of_string List.filter].
  destruct (Py.isspace c) eqn:E; cbn [negb].
  - destruct b; [apply IH|].
    cbn [list_ascii_of_string List.filter]. change (Py.isspace " ") with true.
    cbn [negb]. apply IH.
  - cbn [list_ascii_of_string List.filter]. rewrite E. cbn [negb]. now rewrite IH.
Qed.

Lemma visible_lstrip (s : string) : visible (Py.lstrip s) = visible s.
Proof.
  unfold visible. induction s as [|c s IH]; [reflexivity|].
  cbn [Py.lstrip]. destruct (Py.isspace c) eqn:E; [|reflexivity].
  cbn [list_ascii_of_string List.filter]. rewrite E. cbn [negb]. exact IH.
Qed.

Lemma visible_rstrip (s : string) : visible (Py.rstrip s) = visible s.
Proof.
  unfold visible. induction s as [|c s IH]; [reflexivity|].
  cbn [Py.rstrip]. destruct (Py.rstrip s) as [|c' r'] eqn:Es.
  - cbn [list_ascii_of_string List.filter] in IH |- *. rewrite <- IH.
    destruct (Py.isspace c) eqn:E; cbn [negb list_ascii_of_string List.filter];
      [reflexivity|]. now rewrite E.
  - cbn [list_ascii_of_string List.filter] in IH |- *. now rewrite IH.
Qed.

Lemma visible_normalize (s : string) : visible (normalize_whitespace s) = visible s.
Proof.
  unfold normalize_whitespace, Py.strip.
  now rewrite visible_rstrip, visible_lstrip, visible_sub_spaces.
Qed.

Lemma visible_nil_iff (s : string) :
  visible s = [] <-> forallb Py.isspace (list_ascii_of_string s) = true.
Proof.
  unfold visible. induction s as [|c s IH]; [easy|].
  cbn [list_ascii_of_string List.filter forallb].
  destruct (Py.isspace c); cbn [negb andb]; [exact IH|]. split; discriminate.
Qed.

(** X3: normalization keeps the characters that are not white space, in
    their order, and gives the empty string exactly for a string of white
    space only (the empty string included). *)
Theorem normalize_whitespace_visible (s : string) :
  visible (normalize_whitespace s) = visible s
  /\ (normalize_whitespace s = EmptyString
      <-> forallb Py.isspace (list_ascii_of_string s) = true).
Proof.
  split; [apply visible_normalize|].
  rewrite <- visible_nil_iff, <- visible_normalize. split.
  - now intros ->.
  - intros H. pose proof (normalize_single s) as Hs.
    destruct (normalize_whitespace s) as [|c r]; [reflexivity|].
    cbn [single_blanks] in Hs. unfold visible in H.
    cbn [list_ascii_of_string List.filter] in H.
    destruct (Py.isspace c); [|discriminate].
    rewrite andb_false_r in Hs. discriminate.
Qed.

(** ** [match_keywords] *)

Lemma weight_bounds (kw : string) : 2 <= weight kw <= 5.
Proof.
  unfold weight. destruct (String.eqb _ _); [lia|].
  destruct (String.eqb _ _); lia.
Qed.

Lemma sum_weight_bounds (l : list string) :
  2 * Z.of_nat (length l) <= fold_right Z.add 0 (List.map weight l)
  <= 5 * Z.of_nat (length l).
Proof.
  induction l as [|kw l IH]; [simpl; lia|].
  cbn [List.map fold_right length]. pose proof (weight_bounds kw). lia.
Qed.

Lemma list_filter_sublist {A} (f : A -> bool) (l : list A) :
  List.filter f l `sublist_of` l.
Proof.
  induction l as [|x l IH]; [constructor|]. cbn [List.filter].
  destruct (f x); [now apply sublist_skip|now apply sublist_cons].
Qed.

(** X4: the matched keywords are a subsequence of the configured list, in
    its order; each of them adds between 2 and 5 to the score, so the score
    is 0 exactly when nothing matched. *)
Theorem match_keywords_bounds (T : string) (K : list string) :
  (match_keywords T K).1 `sublist_of` K
  /\ 2 * Z.of_nat (length (match_keywords T K).1) <= (match_keywords T K).2
     <= 5 * Z.of_nat (length (match_keywords T K).1)
  /\ ((match_keywords T K).2 = 0 <-> (match_keywords T K).1 = []).
Proof.
  rewrite match_keywords_eq. cbn [fst snd]. unfold score_spec.
  pose proof (sum_weight_bounds (matched_spec T K)) as Hb.
  split; [apply list_filter_sublist|]. split; [exact Hb|].
  destruct (matched_spec T K) as [|kw m]; [easy|].
  cbn [length] in Hb. split; [lia|discriminate].
Qed.

(** X5: matching against two keyword lists one after the other is matching
    against each: the matched lists are appended and the scores added. *)
Theorem match_keywords_app (T : string) (K1 K2 : list string) :
  match_keywords T (K1 ++ K2)
  = ((match_keywords T K1).1 ++ (match_keywords T K2).1,
     (match_keywords T K1).2 + (match_keywords T K2).2).
Proof.
  rewrite !match_keywords_eq. cbn [fst snd]. unfold score_spec, matched_spec.
  rewrite List.filter_app, List.map_app. f_equal.
  induction (List.map weight (List.filter (occurs_in T) K1)) as [|w l IH];
    [reflexivity|]. cbn [app fold_right]. rewrite IH. lia.
Qed.

Lemma contains_empty (s : string) : Py.contains s EmptyString = true.
Proof. destruct s; reflexivity. Qed.

(** X6: the empty keyword occurs in every text: when the configured list
    holds it, it is matched whatever the text is, and no item is filtered
    out. *)
Theorem match_keywords_empty_keyword (T : string) (K : list string) :
  In EmptyString K ->
  In EmptyString (match_keywords T K).1 /\ 2 <= (match_keywords T K).2.
Proof.
  intros H.
  assert (Hin : In EmptyString (match_keywords T K).1).
  { rewrite match_keywords_eq. apply filter_In. split; [exact H|].
    unfold occurs_in. apply contains_empty. }
  split; [exact Hin|].
  pose proof (match_keywords_eq T K) as E.
  pose proof (sum_weight_bounds (matched_spec T K)) as Hb.
  rewrite E in Hin |- *. cbn [fst snd] in *. unfold score_spec.
  destruct (matched_spec T K); [destruct Hin|]. cbn [length] in Hb. lia.
Qed.

Lemma match_keywords_empty_keyword_witness :
  In EmptyString ["merger"; EmptyString]
  /\ In EmptyString (match_keywords "Quarterly results" ["merger"; EmptyString]).1.
Proof.
  assert (H : In EmptyString ["merger"; EmptyString]) by (simpl; auto).
  split; [exact H|].
  exact (proj1 (match_keywords_empty_keyword "Quarterly results" _ H)).
Defined.

Lemma startswith_app_l (a b x : string) :
  Py.startswith a x = true -> Py.startswith (a +:+ b) x = true.
Proof.
  revert x. induction a as [|c a IH]; intros [|d x] H.
  - now destruct b.
  - discriminate H.
  - reflexivity.
  - change (String c a +:+ b) with (String c (a +:+ b)).
    cbn [Py.startswith] in H |- *.
    apply andb_prop in H as [H1 H2]. now rewrite H1, IH.
Qed.

Lemma contains_app_l (a b x : string) :
  Py.contains a x = true -> Py.contains (a +:+ b) x = true.
Proof.
  induction a as [|c a IH]; intros H.
  - destruct x; [apply contains_empty|discriminate].
  - cbn [Py.contains] in H. apply orb_prop in H as [H|H].
    + change (String c a +:+ b) with (String c (a +:+ b)).
      cbn [Py.contains]. apply orb_true_iff. left.
      now apply (startswith_app_l (String c a) b x).
    + change (String c a +:+ b) with (String c (a +:+ b)).
      cbn [Py.contains]. rewrite (IH H). apply orb_true_r.
Qed.

(** X7: a configured keyword that occurs, case-insensitively, in the title
    of an item or in its snippet is among the matched keywords of the
    item. *)
Theorem keyword_in_title_or_snippet (it : Item) (K : list string) (kw : string) :
  In kw K ->
  Py.contains (Py.lower (title it)) (Py.lower kw) = true
  \/ (exists sn, snippet it = Some sn
                 /\ Py.contains (Py.lower sn) (Py.lower kw) = true) ->
  In kw (match_keywords (item_text it) K).1.
Proof.
  intros Hin H. rewrite match_keywords_eq. apply filter_In.
  split; [exact Hin|]. unfold occurs_in, item_text.
  rewrite !lower_app. destruct H as [H|(sn & Hs & H)].
  - now apply contains_app_l.
  - rewrite Hs. now apply contains_app_r, contains_app_r.
Qed.

Lemma keyword_in_title_or_snippet_witness :
  In "BUY" ["merger"; "BUY"]
  /\ (Py.contains (Py.lower (title acme_item)) (Py.lower "BUY") = true
      \/ (exists sn, snippet acme_item = Some sn
                     /\ Py.contains (Py.lower sn) (Py.lower "BUY") = true))
  /\ In "BUY" (match_keywords (item_text acme_item) ["merger"; "BUY"]).1.
Proof.
  assert (H1 : In "BUY" ["merger"; "BUY"]) by (simpl; auto).
  assert (H2 : Py.contains (Py.lower (title acme_item)) (Py.lower "BUY") = true
      \/ (exists sn, snippet acme_item = Some sn
                     /\ Py.contains (Py.lower sn) (Py.lower "BUY") = true))
    by (left; reflexivity).
  split; [exact H1|]. split; [exact H2|].
  exact (keyword_in_title_or_snippet acme_item _ "BUY" H1 H2).
Defined.

(** ** The items of the HTML adapters *)

Lemma endswith_app_r (a b suf : string) :
  Py.endswith b suf = true -> Py.endswith (a +:+ b) suf = true.
Proof.
  intros H. induction a as [|c a IH]; [exact H|].
  change (String c a +:+ b) with (String c (a +:+ b)).
  cbn [Py.endswith]. rewrite IH. apply orb_true_r.
Qed.

Lemma html_item_absolute (src base : string) (a : anchor) (text : string) :
  Py.startswith base "http" = true ->
  Py.startswith (url (html_item src base a text)) "http" = true.
Proof.
  intros Hb. cbn [url html_item].
  destruct (Py.startswith (href a) "http") eqn:E; [exact E|].
  now apply startswith_app_l.
Qed.

Lemma html_item_suffix (src base : string) (a : anchor) (text suf : string) :
  Py.endswith (href a) suf = true ->
  Py.endswith (url (html_item src base a text)) suf = true.
Proof.
  intros H. cbn [url html_item].
  destruct (Py.startswith (href a) "http"); [exact H|].
  now apply endswith_app_r.
Qed.

Lemma normalize_normalized (s : string) :
  normalize_whitespace (normalize_whitespace s) = normalize_whitespace s.
Proof.
  apply normalize_fixed; [apply normalize_single|apply normalize_rstrip_fixed].
Qed.

(** X8: every item [fetch_businesswire] returns comes from an anchor of the
    page whose href holds /news/home/: its title is the normalized text of
    the anchor, at least 12 characters long, its url is the href, prefixed
    by the site when it does not begin with http, and so begins with http;
    it has no date and no snippet. *)
Theorem businesswire_items_shape (anchors : list anchor) (it : Item) :
  it ∈ businesswire_items anchors ->
  source it = "BusinessWire"
  /\ published_at it = None /\ snippet it = None
  /\ (12 <= String.length (title it))%nat
  /\ normalize_whitespace (title it) = title it
  /\ Py.startswith (url it) "http" = true
  /\ exists a, a ∈ anchors
       /\ Py.contains (href a) "/news/home/" = true
       /\ title it = normalize_whitespace (anchor_text a)
       /\ url it = (if Py.startswith (href a) "http" then href a
                    else "https://www.businesswire.com" +:+ href a).
Proof.
  intros H. apply capped_elem_of, list_elem_of_In, in_flat_map in H
    as (a & Ha & H).
  unfold businesswire_anchor in H. rewrite truthy_length in H.
  destruct (Nat.ltb_spec (String.length (normalize_whitespace (anchor_text a))) 12)
    as [Hl|Hl]; [destruct H|].
  destruct (Py.contains (href a) "/news/home/") eqn:Hc; [|destruct H].
  destruct H as [<-|[]].
  split; [reflexivity|]. split; [reflexivity|]. split; [reflexivity|].
  split; [exact Hl|]. split; [apply normalize_normalized|].
  split; [now apply html_item_absolute|].
  exists a. split; [now apply list_elem_of_In|]. now repeat split.
Qed.

Lemma businesswire_items_shape_witness :
  html_item "BusinessWire" "https://www.businesswire.com" bw_twelve "Acme mergers"
    ∈ businesswire_items [bw_twelve]
  /\ Py.startswith
       (url (html_item "BusinessWire" "https://www.businesswire.com" bw_twelve
               "Acme mergers")) "http" = true.
Proof.
  assert (H : html_item "BusinessWire" "https://www.businesswire.com" bw_twelve
                "Acme mergers" ∈ businesswire_items [bw_twelve])
    by (apply list_elem_of_In; vm_compute; auto).
  split; [exact H|].
  exact (proj1 (proj2 (proj2 (proj2 (proj2 (proj2
           (businesswire_items_shape [bw_twelve] _ H))))))).
Defined.

(** X9: every item [fetch_prnewswire] returns comes from an anchor of the
    page whose href holds /news-releases/ and ends in .html: its title is
    the normalized text of the anchor, more than 12 characters long, its
    url begins with http and ends in .html; it has no date and no
    snippet. *)
Theorem prnewswire_items_shape (anchors : list anchor) (it : Item) :
  it ∈ prnewswire_items anchors ->
  source it = "PRNewswire"
  /\ published_at it = None /\ snippet it = None
  /\ (12 < String.length (title it))%nat
  /\ normalize_whitespace (title it) = title it
  /\ Py.startswith (url it) "http" = true
  /\ Py.endswith (url it) ".html" = true
  /\ exists a, a ∈ anchors
       /\ Py.contains (href a) "/news-releases/" = true
       /\ title it = normalize_whitespace (anchor_text a)
       /\ url it = (if Py.startswith (href a) "http" then href a
                    else "https://www.prnewswire.com" +:+ href a).
Proof.
  intros H. apply capped_elem_of, list_elem_of_In, in_flat_map in H
    as (a & Ha & H).
  unfold prnewswire_anchor in H.
  destruct (Py.contains (href a) "/news-releases/") eqn:Hc; [|destruct H].
  destruct (Py.endswith (href a) ".html") eqn:He; [|destruct H].
  destruct (Nat.ltb_spec 12 (String.length (normalize_whitespace (anchor_text a))))
    as [Hl|Hl]; [|destruct H].
  destruct H as [<-|[]].
  split; [reflexivity|]. split; [reflexivity|]. split; [reflexivity|].
  split; [exact Hl|]. split; [apply normalize_normalized|].
  split; [now apply html_item_absolute|].
  split; [now apply html_item_suffix|].
  exists a. split; [now apply list_elem_of_In|]. now repeat split.
Qed.

Lemma prnewswire_items_shape_witness :
  html_item "PRNewswire" "https://www.prnewswire.com" pr_release
    "Acme to Acquire Widget" ∈ prnewswire_items [pr_release]
  /\ Py.endswith
       (url (html_item "PRNewswire" "https://www.prnewswire.com" pr_release
               "Acme to Acquire Widget")) ".html" = true.
Proof.
  assert (H : html_item "PRNewswire" "https://www.prnewswire.com" pr_release
                "Acme to Acquire Widget" ∈ prnewswire_items [pr_release])
    by (apply list_elem_of_In; vm_compute; auto).
  split; [exact H|].
  exact (proj1 (proj2 (proj2 (proj2 (proj2 (proj2 (proj2
           (prnewswire_items_shape [pr_release] _ H)))))))).
Defined.

(** ** De-duplication *)

Lemma first_seen_fixed (l : list Item) (earlier : list string) :
  NoDup (url <$> l) -> (forall it, it ∈ l -> url it ∉ earlier) ->
  first_seen earlier l = l.
Proof.
  revert earlier. induction l as [|x r IH]; intros earlier Hnd Hfresh;
    [reflexivity|].
  cbn [first_seen]. rewrite fmap_cons in Hnd. apply NoDup_cons in Hnd as [Hx Hnd].
  rewrite bool_decide_eq_false_2 by (apply Hfresh, elem_of_cons; now left).
  f_equal. apply IH; [exact Hnd|].
  intros it Hit Hin. apply elem_of_app in Hin as [Hin|Hin].
  - apply (Hfresh it); [apply elem_of_cons; now right|exact Hin].
  - apply list_elem_of_singleton in Hin. apply Hx. rewrite <- Hin.
    now apply list_elem_of_fmap_2.
Qed.

Lemma first_seen_complete (l : list Item) (earlier : list string) (it : Item) :
  it ∈ l -> url it ∈ earlier \/ url it ∈ url <$> first_seen earlier l.
Proof.
  revert earlier. induction l as [|x r IH]; intros earlier H; [inversion H|].
  cbn [first_seen]. apply elem_of_cons in H as [->|H].
  - destruct (bool_decide (url x ∈ earlier)) eqn:E.
    + left. now apply bool_decide_eq_true in E.
    + right. rewrite fmap_cons. apply elem_of_cons. now left.
  - destruct (IH (earlier ++ [url x]) H) as [Hin|Hin].
    + apply elem_of_app in Hin as [Hin|Hin]; [now left|].
      apply list_elem_of_singleton in Hin.
      destruct (bool_decide (url x ∈ earlier)) eqn:E.
      * left. apply bool_decide_eq_true in E. now rewrite Hin.
      * right. rewrite fmap_cons, Hin. apply elem_of_cons. now left.
    + right. destruct (bool_decide (url x ∈ earlier)); [exact Hin|].
      rewrite fmap_cons. apply elem_of_cons. now right.
Qed.

(** X12: the de-duplication loop loses no url, leaves a list without
    repeated urls as it is, and so changes nothing when run a second
    time. *)
Theorem dedupe_idempotent (l : list Item) :
  (forall it, it ∈ l -> url it ∈ url <$> dedupe l)
  /\ (NoDup (url <$> l) -> dedupe l = l)
  /\ dedupe (dedupe l) = dedupe l.
Proof.
  split; [|split].
  - intros it H. rewrite dedupe_first_seen.
    destruct (first_seen_complete l [] it H) as [Hin|Hin]; [inversion Hin|exact Hin].
  - intros H. rewrite dedupe_first_seen. apply first_seen_fixed; [exact H|].
    intros it _ Hin. inversion Hin.
  - rewrite (dedupe_first_seen (dedupe l)). apply first_seen_fixed.
    + rewrite dedupe_first_seen. apply first_seen_NoDup.
    + intros it _ Hin. inversion Hin.
Qed.

Lemma dedupe_idempotent_witness :
  NoDup (url <$> [acme_item; dup_item])
  /\ dedupe [acme_item; dup_item] = [acme_item; dup_item].
Proof.
  assert (H : NoDup (url <$> [acme_item; dup_item])).
  { apply NoDup_cons. split.
    - intros Hin. apply list_elem_of_singleton in Hin. discriminate Hin.
    - apply NoDup_cons. split; [intros Hin; inversion Hin|constructor]. }
  split; [exact H|].
  exact (proj1 (proj2 (dedupe_idempotent [acme_item; dup_item])) H).
Defined.

(** ** The items of the JSON adapter *)

Lemma normalize_json_normalized (v : json) (t : string) :
  normalize_whitespace_json v = Ok t -> normalize_whitespace t = t.
Proof.
  unfold normalize_whitespace_json.
  destruct (por v (JStr "")); try discriminate.
  intros [= <-]. apply normalize_normalized.
Qed.

Section JsonShape.

Variable parse_iso : json -> option string.
Variable repr : json -> string.
Variable P : Item -> Prop.

Hypothesis entry_P : forall e out it,
  globenewswire_entry parse_iso repr e = Ok out -> it ∈ out -> P it.

Lemma globenewswire_loop_forall (raw : list json) (acc items : list Item) :
  (forall it, it ∈ acc -> P it) ->
  globenewswire_loop parse_iso repr raw acc = Ok items ->
  forall it, it ∈ items -> P it.
Proof.
  revert acc. induction raw as [|e raw IH]; intros acc Hacc; cbn [globenewswire_loop].
  - now intros [= <-].
  - destruct (globenewswire_entry parse_iso repr e) as [out|] eqn:He; [|discriminate].
    cbn [bind]. apply IH. intros it Hin. apply elem_of_app in Hin as [Hin|Hin].
    + now apply Hacc.
    + now apply (entry_P e out).
Qed.

Lemma globenewswire_items_forall (data : json) (items : list Item) (it : Item) :
  globenewswire_items parse_iso repr data = Ok items -> it ∈ items -> P it.
Proof.
  unfold globenewswire_items.
  destruct (negb (truthy (raw_items_of data))).
  - intros [= <-] H. inversion H.
  - destruct (iterate (raw_items_of data)) as [raw|]; [|discriminate]. cbn [bind].
    destruct (globenewswire_loop parse_iso repr raw []) as [l|] eqn:El;
      [|discriminate].
    cbn [bind]. intros [= <-] H.
    apply (globenewswire_loop_forall raw [] l); [|exact El|].
    + intros ? Hn. inversion Hn.
    + eapply elem_of_sublist; [exact H|apply sublist_take].
Qed.

End JsonShape.

Lemma globenewswire_items_length (parse_iso : json -> option string)
    (repr : json -> string) (data : json) (items : list Item) :
  globenewswire_items parse_iso repr data = Ok items -> (length items <= 60)%nat.
Proof.
  unfold globenewswire_items.
  destruct (negb (truthy (raw_items_of data))).
  - intros [= <-]. simpl. lia.
  - destruct (iterate (raw_items_of data)) as [raw|]; [|discriminate]. cbn [bind].
    destruct (globenewswire_loop parse_iso repr raw []) as [l|]; [|discriminate].
    cbn [bind]. intros [= <-]. rewrite length_take. lia.
Qed.

(** X10: when [fetch_globenewswire_json] returns, it returns at most 60
    items, each with the source GlobeNewswire, a non-empty normalized title,
    a url that begins with http, and a snippet that is either absent or a
    non-empty normalized string. *)
Theorem globenewswire_items_shape (parse_iso : json -> option string)
    (repr : json -> string) (data : json) (items : list Item) :
  globenewswire_items parse_iso repr data = Ok items ->
  (length items <= 60)%nat
  /\ forall it, it ∈ items ->
       source it = "GlobeNewswire"
       /\ title it <> EmptyString
       /\ normalize_whitespace (title it) = title it
       /\ Py.startswith (url it) "http" = true
       /\ snippet it <> Some EmptyString
       /\ (forall sn, snippet it = Some sn -> normalize_whitespace sn = sn).
Proof.
  intros H. split; [now apply globenewswire_items_length in H|].
  intros it Hit. revert data items it H Hit.
  apply globenewswire_items_forall. clear.
  intros e out it He Hin.
  destruct e as [| | | | |kv]; try discriminate.
  rewrite globenewswire_entry_fields in He.
  destruct (normalize_whitespace_json (field_title kv)) as [t|] eqn:Et;
    [|discriminate].
  cbn [bind] in He. destruct (negb (Py.truthy t) || _) eqn:Eskip.
  { injection He as <-. inversion Hin. }
  destruct (normalize_whitespace_json (field_teaser kv)) as [sn|] eqn:Es;
    [|discriminate].
  cbn [bind] in He. injection He as <-.
  apply list_elem_of_singleton in Hin as ->. cbn [source title url snippet].
  apply orb_false_iff in Eskip as [Ht _].
  split; [reflexivity|]. split; [now destruct t|].
  split; [now apply normalize_json_normalized in Et|]. split.
  { destruct (Py.startswith (str repr (field_link kv)) "http") eqn:E; [exact E|].
    now apply startswith_app_l. }
  split.
  - destruct sn; [discriminate|]. cbn [Py.truthy]. discriminate.
  - intros sn'. destruct (Py.truthy sn); [|discriminate].
    intros [= <-]. now apply normalize_json_normalized in Es.
Qed.

Lemma globenewswire_items_shape_witness :
  globenewswire_items no_date no_repr dup_feed = Ok [dup_item; dup_item]
  /\ (length [dup_item; dup_item] <= 60)%nat.
Proof.
  assert (H : globenewswire_items no_date no_repr dup_feed = Ok [dup_item; dup_item])
    by reflexivity.
  split; [exact H|].
  exact (proj1 (globenewswire_items_shape no_date no_repr dup_feed _ H)).
Defined.

Lemma globenewswire_entry_not_object (parse_iso : json -> option string)
    (repr : json -> string) (e : json) :
  (forall kv, e <> JObj kv) ->
  globenewswire_entry parse_iso repr e = Raise AttributeError.
Proof.
  intros H. destruct e as [| | | | |kv]; try reflexivity.
  now destruct (H kv).
Qed.

(** X11: an entry of the feed that is not an object (a null, a number, a
    string, a list) makes the adapter leave with [AttributeError], whatever
    the entries before it gave: the items of the good entries are lost with
    it. *)
Theorem globenewswire_bad_entry_aborts (parse_iso : json -> option string)
    (repr : json -> string) (data : json) (pre post : list json) (e : json)
    (outs : list (list Item)) :
  raw_items_of data = JArr (pre ++ e :: post) ->
  Forall2 (fun x o => globenewswire_entry parse_iso repr x = Ok o) pre outs ->
  (forall kv, e <> JObj kv) ->
  globenewswire_items parse_iso repr data = Raise AttributeError.
Proof.
  intros Hraw Hpre He.
  assert (Hloop : forall acc,
    globenewswire_loop parse_iso repr (pre ++ e :: post) acc = Raise AttributeError).
  { clear Hraw. induction Hpre as [|x o pre outs Hx _ IH]; intros acc.
    - cbn [app globenewswire_loop].
      now rewrite globenewswire_entry_not_object.
    - cbn [app globenewswire_loop]. rewrite Hx. cbn [bind]. apply IH. }
  unfold globenewswire_items. rewrite Hraw.
  assert (Ht : truthy (JArr (pre ++ e :: post)) = true) by (now destruct pre).
  rewrite Ht. cbn [negb iterate bind]. now rewrite Hloop.
Qed.

Lemma globenewswire_bad_entry_aborts_witness :
  raw_items_of (JArr ([feed_entry "/a.html"] ++ JNull :: [feed_entry "/b.html"]))
  = JArr ([feed_entry "/a.html"] ++ JNull :: [feed_entry "/b.html"])
  /\ (forall kv, JNull <> JObj kv)
  /\ globenewswire_items no_date no_repr
       (JArr ([feed_entry "/a.html"] ++ JNull :: [feed_entry "/b.html"]))
     = Raise AttributeError.
Proof.
  split; [reflexivity|]. split; [discriminate|].
  eapply (globenewswire_bad_entry_aborts no_date no_repr _
            [feed_entry "/a.html"] [feed_entry "/b.html"] JNull [_]);
    [reflexivity | constructor; [reflexivity|constructor] | discriminate].
Defined.

(** ** The adapters after [safe_get] *)

Lemma attempt_ok_status (net : network) (u : string) (n : nat) (r : response) :
  attempt net u n = Ok r -> raise_for_status r = Ok tt.
Proof.
  unfold attempt. destruct (net n u) as [r'|e]; [|discriminate].
  destruct (raise_for_status r') as [[]|e] eqn:E; [|discriminate].
  cbn [bind]. now intros [= <-].
Qed.

Lemma safe_get_ok_status (net : network) (u : string) (n : nat) (r : response) :
  (safe_get net u n).1 = Ok r -> raise_for_status r = Ok tt.
Proof.
  unfold safe_get. cbn [safe_get_loop].
  destruct (attempt net u n) as [r0|e0] eqn:E0;
    [cbn [fst]; intros [= <-]; now apply attempt_ok_status in E0|].
  destruct (attempt net u (S n)) as [r1|e1] eqn:E1;
    [cbn [fst]; intros [= <-]; now apply attempt_ok_status in E1|].
  destruct (attempt net u (S (S n))) as [r2|e2] eqn:E2;
    [cbn [fst]; intros [= <-]; now apply attempt_ok_status in E2|].
  discriminate.
Qed.

Lemma safe_get_count (net : network) (u : string) (n : nat) :
  (n < (safe_get net u n).2 <= n + 3)%nat.
Proof.
  unfold safe_get. cbn [safe_get_loop].
  destruct (attempt net u n); [cbn; lia|].
  destruct (attempt net u (S n)); [cbn; lia|].
  destruct (attempt net u (S (S n))); cbn; lia.
Qed.

Lemma safe_get_all_failed (net : network) (u : string) (n : nat) :
  (forall m, failed net u m) ->
  exists e, safe_get net u n = (Raise e, (n + 3)%nat).
Proof.
  intros H. unfold safe_get. cbn [safe_get_loop].
  destruct (H n) as [e0 ->]. destruct (H (S n)) as [e1 ->].
  destruct (H (S (S n))) as [e2 ->]. exists e2. cbn [default].
  f_equal. lia.
Qed.

(** X13: each adapter makes between one and three requests and fails for
    the fetch exactly when [safe_get] does: its own [raise_for_status] on
    the response [safe_get] returned never raises.  The HTML adapters then
    always return their items; the JSON adapter can still fail in
    [r.json()] or on the payload. *)
Theorem adapters_after_safe_get (parse_iso : json -> option string)
    (repr : json -> string) (select_anchors : string -> list anchor)
    (parse_json : string -> result json) (net : network) (u : string) (n : nat) :
  fetch_businesswire select_anchors net u n
  = (match (safe_get net u n).1 with
     | Ok r => Ok (businesswire_items (select_anchors (body_text r)))
     | Raise e => Raise e
     end, (safe_get net u n).2)
  /\ fetch_prnewswire select_anchors net u n
     = (match (safe_get net u n).1 with
        | Ok r => Ok (prnewswire_items (select_anchors (body_text r)))
        | Raise e => Raise e
        end, (safe_get net u n).2)
  /\ fetch_globenewswire_json parse_iso repr parse_json net u n
     = (match (safe_get net u n).1 with
        | Ok r => let! data := parse_json (body_text r) in
                  globenewswire_items parse_iso repr data
        | Raise e => Raise e
        end, (safe_get net u n).2)
  /\ (n < (safe_get net u n).2 <= n + 3)%nat.
Proof.
  unfold fetch_businesswire, fetch_prnewswire, fetch_globenewswire_json.
  pose proof (safe_get_ok_status net u n) as Hs.
  pose proof (safe_get_count net u n) as Hc.
  destruct (safe_get net u n) as [[r|e] n']; cbn [fst snd bind] in *.
  - rewrite (Hs r eq_refl). cbn [bind]. now repeat split.
  - now repeat split.
Qed.

Lemma businesswire_items_length (anchors : list anchor) :
  (length (businesswire_items anchors) <= 50)%nat.
Proof. unfold businesswire_items. rewrite length_take. lia. Qed.

Lemma prnewswire_items_length (anchors : list anchor) :
  (length (prnewswire_items anchors) <= 60)%nat.
Proof. unfold prnewswire_items. rewrite length_take. lia. Qed.

Lemma collect_length (acc : list Item) (r : result (list Item)) (k : nat) :
  (forall l, r = Ok l -> (length l <= k)%nat) ->
  (length (collect acc r) <= length acc + k)%nat.
Proof.
  intros H. destruct r as [l|e]; cbn [collect]; [|lia].
  rewrite length_app. specialize (H l eq_refl). lia.
Qed.

(** X14: one run works on at most 170 items: at most 50, 60 and 60 from the
    three adapters, a failed adapter giving none. *)
Theorem fetch_all_bounded (parse_iso : json -> option string)
    (repr : json -> string) (select_anchors : string -> list anchor)
    (parse_json : string -> result json) (cfg : config) (net : network) :
  (length (fetch_all parse_iso repr select_anchors parse_json cfg net) <= 170)%nat.
Proof.
  unfold fetch_all, fetch_businesswire, fetch_prnewswire, fetch_globenewswire_json.
  destruct (safe_get net (businesswire cfg) 0) as [r1 n1].
  destruct (safe_get net (prnewswire cfg) n1) as [r2 n2].
  destruct (safe_get net (globenewswire_json cfg) n2) as [r3 n3].
  match goal with
  | |- (length (collect (collect (collect [] ?a) ?b) ?c) <= _)%nat =>
      pose proof (collect_length [] a 50) as H1;
      pose proof (collect_length (collect [] a) b 60) as H2;
      pose proof (collect_length (collect (collect [] a) b) c 60) as H3
  end.
  cbn [length] in H1.
  assert (L1 : (length (collect [] (let! r := r1 in
                  let! _ := raise_for_status r in
                  Ok (businesswire_items (select_anchors (body_text r)))))
                <= 0 + 50)%nat).
  { apply H1. intros l. destruct r1 as [r1|]; [|discriminate]. cbn [bind].
    destruct (raise_for_status r1); [|discriminate]. cbn [bind].
    intros [= <-]. apply businesswire_items_length. }
  assert (L2 : forall acc, (length (collect acc (let! r := r2 in
                  let! _ := raise_for_status r in
                  Ok (prnewswire_items (select_anchors (body_text r)))))
                <= length acc + 60)%nat).
  { intros acc. apply collect_length. intros l.
    destruct r2 as [r2|]; [|discriminate]. cbn [bind].
    destruct (raise_for_status r2); [|discriminate]. cbn [bind].
    intros [= <-]. apply prnewswire_items_length. }
  assert (L3 : forall acc, (length (collect acc (let! r := r3 in
                  let! _ := raise_for_status r in
                  let! data := parse_json (body_text r) in
                  globenewswire_items parse_iso repr data))
                <= length acc + 60)%nat).
  { intros acc. apply collect_length. intros l.
    destruct r3 as [r3|]; [|discriminate]. cbn [bind].
    destruct (raise_for_status r3); [|discriminate]. cbn [bind].
    destruct (parse_json (body_text r3)) as [data|]; [|discriminate]. cbn [bind].
    apply globenewswire_items_length. }
  clear H1 H2 H3.
  etransitivity; [apply L3|]. specialize (L2 (collect [] (let! r := r1 in
                  let! _ := raise_for_status r in
                  Ok (businesswire_items (select_anchors (body_text r)))))).
  lia.
Qed.

Lemma fetch_all_down (parse_iso : json -> option string)
    (repr : json -> string) (select_anchors : string -> list anchor)
    (parse_json : string -> result json) (cfg : config) (net : network) :
  (forall u m, failed net u m) ->
  fetch_all parse_iso repr select_anchors parse_json cfg net = [].
Proof.
  intros H. unfold fetch_all, fetch_businesswire, fetch_prnewswire,
    fetch_globenewswire_json.
  destruct (safe_get_all_failed net (businesswire cfg) 0 (H _)) as [e1 ->].
  destruct (safe_get_all_failed net (prnewswire cfg) (0 + 3) (H _)) as [e2 ->].
  destruct (safe_get_all_failed net (globenewswire_json cfg) (0 + 3 + 3) (H _))
    as [e3 ->].
  reflexivity.
Qed.

(** X15: when every request fails (transport error or a status of
    400..599), [main] still completes: the table is left as it was and the
    digest is the no-matches message. *)
Theorem main_when_all_fetches_fail (parse_iso : json -> option string)
    (repr : json -> string) (select_anchors : string -> list anchor)
    (parse_json : string -> result json) (clock : nat -> string)
    (cfg : config) (net : network) (today : string) (db : store) :
  (forall u m, failed net u m) ->
  main parse_iso repr select_anchors parse_json clock cfg net today db
  = (db, digest_title today +:+ Py.nl +:+ Py.nl +:+ no_matches).
Proof.
  intros H. unfold main. now rewrite fetch_all_down.
Qed.

Lemma main_when_all_fetches_fail_witness :
  (forall u m, failed net_down u m)
  /\ main no_date no_repr (fun _ => []) (fun _ => Ok JNull) noon sample_config
       net_down "2024-05-02" ∅
     = (∅, digest_title "2024-05-02" +:+ Py.nl +:+ Py.nl +:+ no_matches).
Proof.
  assert (H : forall u m, failed net_down u m)
    by (intros u m; exists (ConnectionError "unreachable"); reflexivity).
  split; [exact H|].
  exact (main_when_all_fetches_fail no_date no_repr (fun _ => [])
           (fun _ => Ok JNull) noon sample_config net_down "2024-05-02" ∅ H).
Defined.

(** ** The table under [upsert_new] *)

Lemma upsert_new_size (now : string) (db : store) (it : Item) :
  (size db <= size (upsert_new now db it).1 <= S (size db))%nat.
Proof.
  unfold upsert_new. destruct (db !! url it) eqn:E; cbn [fst]; [lia|].
  rewrite map_size_insert_None by exact E. lia.
Qed.

Lemma upsert_new_keyed (now : string) (db : store) (it : Item) :
  (forall u r, db !! u = Some r -> row_url r = u) ->
  forall u r, (upsert_new now db it).1 !! u = Some r -> row_url r = u.
Proof.
  intros Hinv u r. unfold upsert_new.
  destruct (db !! url it) eqn:E; cbn [fst]; [apply Hinv|].
  destruct (decide (url it = u)) as [<-|Hne].
  - rewrite lookup_insert_eq. now intros [= <-].
  - rewrite lookup_insert_ne by exact Hne. apply Hinv.
Qed.

(** X16: the table only grows: whatever sequence of inserts is made, every
    row on record stays as it is, the number of rows grows by at most the
    number of inserts, and each row stays filed under its own url. *)
Theorem upsert_all_append_only (db : store) (ops : list (string * Item)) :
  (forall u r, db !! u = Some r -> upsert_all db ops !! u = Some r)
  /\ (size db <= size (upsert_all db ops) <= size db + length ops)%nat
  /\ ((forall u r, db !! u = Some r -> row_url r = u) ->
      forall u r, upsert_all db ops !! u = Some r -> row_url r = u).
Proof.
  split; [intros u r; apply upsert_all_keeps|].
  revert db. induction ops as [|op ops IH]; intros db.
  - cbn. split; [lia|auto].
  - cbn [upsert_all fold_left length]. fold (upsert_all (upsert_new op.1 db op.2).1 ops).
    destruct (IH (upsert_new op.1 db op.2).1) as [Hs Hk].
    pose proof (upsert_new_size op.1 db op.2). split; [lia|].
    intros Hinv. apply Hk. now apply upsert_new_keyed.
Qed.

Lemma upsert_all_append_only_witness :
  (forall u r, (∅ : store) !! u = Some r -> row_url r = u)
  /\ upsert_all ∅ [("2024-05-01T06:00:00+00:00", acme_item)]
       !! url acme_item
     = Some (row_of "2024-05-01T06:00:00+00:00" acme_item)
  /\ row_url (row_of "2024-05-01T06:00:00+00:00" acme_item) = url acme_item.
Proof.
  assert (H0 : forall u r, (∅ : store) !! u = Some r -> row_url r = u).
  { intros u r H. rewrite lookup_empty in H. discriminate H. }
  assert (H1 : upsert_all ∅ [("2024-05-01T06:00:00+00:00", acme_item)]
                 !! url acme_item
               = Some (row_of "2024-05-01T06:00:00+00:00" acme_item))
    by apply lookup_insert_eq.
  split; [exact H0|]. split; [exact H1|].
  exact (proj2 (proj2 (upsert_all_append_only ∅
           [("2024-05-01T06:00:00+00:00", acme_item)])) H0 _ _ H1).
Defined.

(** ** The second loop of [main] *)

Section Runs.

Variable clock : nat -> string.
Variable kws : list string.

Lemma process_item_rows_kept (st : run_state) (it : Item) (u : string) (r : Row) :
  conn st !! u = Some r -> conn (process_item clock kws st it) !! u = Some r.
Proof.
  intros H. destruct (survives_dec kws it) as [Hno|Hyes].
  - now rewrite process_item_skip.
  - rewrite process_item_keep by exact Hyes. cbn [conn].
    now apply upsert_new_keeps.
Qed.

Lemma process_items_rows_kept (l : list Item) (st : run_state) (u : string) (r : Row) :
  conn st !! u = Some r -> conn (process_items clock kws st l) !! u = Some r.
Proof.
  revert st. induction l as [|it l IH]; intros st H; [exact H|].
  cbn [process_items fold_left]. apply IH. now apply process_item_rows_kept.
Qed.

Lemma process_item_inv (db0 : store) (st : run_state) (it : Item) :
  run_inv db0 st -> run_inv db0 (process_item clock kws st it).
Proof.
  intros (Hnd & Hh & Hm).
  destruct (survives_dec kws it) as [Hno|Hyes].
  { rewrite process_item_skip by exact Hno.
    split; [exact Hnd|split; [exact Hh|exact Hm]]. }
  rewrite process_item_keep by exact Hyes. cbn zeta.
  unfold upsert_new. destruct (conn st !! url (scored kws it)) as [r|] eqn:E;
    cbn [fst snd].
  { split; [exact Hnd|split; [exact Hh|exact Hm]]. }
  split; [|split].
  - cbn [new_hits]. rewrite fmap_app. apply NoDup_app.
    split; [exact Hnd|]. split; [|apply NoDup_singleton].
    intros u Hu Hin. apply list_elem_of_singleton in Hin. subst u.
    apply list_elem_of_fmap in Hu as (h & Hu & Hin).
    destruct (Hh h Hin) as [[r Hr] _]. rewrite <- Hu in Hr. congruence.
  - cbn [new_hits conn]. intros h Hin. apply elem_of_app in Hin as [Hin|Hin].
    + destruct (Hh h Hin) as [[r Hr] H0]. split; [|exact H0].
      exists r. rewrite lookup_insert_ne; [exact Hr|]. congruence.
    + apply list_elem_of_singleton in Hin. subst h. split.
      * rewrite lookup_insert_eq. now eexists.
      * destruct (db0 !! url (scored kws it)) as [r|] eqn:E0; [|reflexivity].
        apply Hm in E0. congruence.
  - cbn [conn]. intros u r Hu. rewrite lookup_insert_ne; [now apply Hm|].
    intros <-. apply Hm in Hu. congruence.
Qed.

Lemma process_items_inv (db0 : store) (l : list Item) (st : run_state) :
  run_inv db0 st -> run_inv db0 (process_items clock kws st l).
Proof.
  revert st. induction l as [|it l IH]; intros st H; [exact H|].
  cbn [process_items fold_left]. apply IH. now apply process_item_inv.
Qed.

Lemma process_items_order (l : list Item) (st : run_state) :
  exists ext, new_hits (process_items clock kws st l) = new_hits st ++ ext
              /\ ext `sublist_of` (scored kws <$> l).
Proof.
  revert st. induction l as [|it l IH]; intros st.
  - exists []. split; [now rewrite app_nil_r|constructor].
  - cbn [process_items fold_left].
    destruct (IH (process_item clock kws st it)) as (ext & He & Hs).
    fold (process_items clock kws (process_item clock kws st it) l).
    rewrite He, fmap_cons. destruct (survives_dec kws it) as [Hno|Hyes].
    + rewrite process_item_skip by exact Hno. cbn [new_hits].
      exists ext. split; [reflexivity|now apply sublist_cons].
    + rewrite process_item_keep by exact Hyes. cbn zeta. cbn [new_hits].
      destruct (upsert_new _ _ _).2.
      * exists (scored kws it :: ext). split; [now rewrite <- app_assoc|].
        now apply sublist_skip.
      * exists ext. split; [reflexivity|now apply sublist_cons].
Qed.

Lemma process_items_recorded (l : list Item) (st : run_state) (it : Item) :
  it ∈ l -> survives kws it ->
  is_Some (conn (process_items clock kws st l) !! url it).
Proof.
  revert st. induction l as [|x l IH]; intros st Hin Hs; [inversion Hin|].
  cbn [process_items fold_left]. apply elem_of_cons in Hin as [->|Hin].
  - assert (H : is_Some (conn (process_item clock kws st x) !! url x)).
    { rewrite process_item_keep by exact Hs. cbn zeta. cbn [conn].
      unfold upsert_new. change (url (scored kws x)) with (url x).
      destruct (conn st !! url x) as [r|] eqn:E; cbn [fst].
      - rewrite E. now eexists.
      - rewrite lookup_insert_eq. now eexists. }
    destruct H as [r Hr]. exists r. now apply process_items_rows_kept.
  - now apply IH.
Qed.

Lemma process_items_nothing_new (l : list Item) (st : run_state) :
  (forall it, it ∈ l -> survives kws it -> is_Some (conn st !! url it)) ->
  conn (process_items clock kws st l) = conn st
  /\ new_hits (process_items clock kws st l) = new_hits st.
Proof.
  revert st. induction l as [|it l IH]; intros st H; [now split|].
  cbn [process_items fold_left].
  assert (Hstep : conn (process_item clock kws st it) = conn st
                  /\ new_hits (process_item clock kws st it) = new_hits st).
  { destruct (survives_dec kws it) as [Hno|Hyes].
    - now rewrite process_item_skip.
    - rewrite process_item_keep by exact Hyes. cbn zeta.
      destruct (H it) as [r Hr]; [apply elem_of_cons; now left|exact Hyes|].
      change (url it) with (url (scored kws it)) in Hr.
      rewrite (upsert_new_present _ _ _ _ Hr). now split. }
  destruct Hstep as [Hc Hn].
  destruct (IH (process_item clock kws st it)) as [Hc' Hn'].
  - intros x Hx Hs. rewrite Hc. apply H; [apply elem_of_cons; now right|exact Hs].
  - fold (process_items clock kws (process_item clock kws st it) l).
    split; congruence.
Qed.

End Runs.

(** X18: the new hits of a run have pairwise different urls, none of which
    was on record before the run and all of which are on record after it;
    they stand in the order of the items they come from; the rows on record
    before the run are unchanged. *)
Theorem new_hits_fresh_and_distinct (clock : nat -> string) (kws : list string)
    (db : store) (all_items : list Item) :
  let st := process_items clock kws (mkRun db [] 0) all_items in
  NoDup (url <$> new_hits st)
  /\ (forall h, h ∈ new_hits st ->
        db !! url h = None /\ is_Some (conn st !! url h))
  /\ new_hits st `sublist_of` (scored kws <$> all_items)
  /\ (forall u r, db !! u = Some r -> conn st !! u = Some r).
Proof.
  intros st.
  assert (Hinv : run_inv db st).
  { apply process_items_inv. split; [constructor|]. split; [|auto].
    intros h Hh. inversion Hh. }
  destruct Hinv as (Hnd & Hh & Hm).
  split; [exact Hnd|]. split; [intros h Hin; split; now apply Hh|].
  split; [|exact Hm].
  destruct (process_items_order clock kws all_items (mkRun db [] 0))
    as (ext & He & Hs).
  unfold st. now rewrite He.
Qed.

(** X19: a second pass over the same items, at any later time, against the
    table the first pass left finds nothing new: no new hit and no change
    of the table. *)
Theorem rerun_finds_nothing_new (clock clock' : nat -> string)
    (kws : list string) (db : store) (all_items : list Item) (t : nat) :
  let st := process_items clock kws (mkRun db [] 0) all_items in
  let st' := process_items clock' kws (mkRun (conn st) [] t) all_items in
  conn st' = conn st /\ new_hits st' = [].
Proof.
  intros st st'.
  apply (process_items_nothing_new clock' kws all_items (mkRun (conn st) [] t)).
  intros it Hin Hs. cbn [conn]. now apply process_items_recorded.
Qed.

(** ** The digest *)

Lemma startswith_refl (x : string) : Py.startswith x x = true.
Proof.
  induction x as [|c x IH]; [reflexivity|]. cbn [Py.startswith].
  now rewrite Ascii.eqb_refl, IH.
Qed.

Lemma contains_refl (x : string) : Py.contains x x = true.
Proof. destruct x; cbn [Py.contains]; now rewrite startswith_refl. Qed.

Lemma join_contains (sep x : string) (l : list string) :
  x ∈ l -> Py.contains (Py.join sep l) x = true.
Proof.
  induction l as [|y r IH]; intros H; [inversion H|].
  apply elem_of_cons in H as [->|H].
  - destruct r as [|z r]; [apply contains_refl|].
    cbn [Py.join]. apply contains_app_l, contains_refl.
  - specialize (IH H). destruct r as [|z r]; [inversion H|].
    cbn [Py.join] in IH |- *. now apply contains_app_r, contains_app_r.
Qed.

Lemma build_digest_lines (today : string) (hits : list Item) :
  build_digest today hits = Py.join Py.nl (digest_lines today hits).
Proof. now destruct hits. Qed.

Lemma digest_lines_render (today : string) (hits : list Item) :
  hits <> [] ->
  digest_lines today hits
  = [digest_title today; ""] ++ render_spec None (sort_desc hits).
Proof.
  intros H. unfold digest_lines. destruct hits as [|h hits]; [contradiction|].
  now rewrite render_fold.
Qed.

Lemma render_spec_item (l : list Item) (prev : option string) (h : Item)
    (line : string) :
  h ∈ l -> line ∈ item_lines h -> line ∈ render_spec prev l.
Proof.
  revert prev. induction l as [|x r IH]; intros prev Hin Hl; [inversion Hin|].
  cbn [render_spec]. apply elem_of_app. right. apply elem_of_app.
  apply elem_of_cons in Hin as [->|Hin]; [now left|right; now apply IH].
Qed.

Lemma digest_lines_item (today : string) (hits : list Item) (h : Item)
    (line : string) :
  h ∈ hits -> line ∈ item_lines h -> line ∈ digest_lines today hits.
Proof.
  intros Hin Hl. rewrite digest_lines_render by (intros ->; inversion Hin).
  apply elem_of_app. right. apply render_spec_item with h; [|exact Hl].
  now rewrite sort_desc_perm.
Qed.

Lemma render_spec_block (l : list Item) (prev : option string) (h : Item) :
  h ∈ l ->
  exists pre post, render_spec prev l = pre ++ item_lines h ++ post.
Proof.
  revert prev. induction l as [|x r IH]; intros prev Hin; [inversion Hin|].
  cbn [render_spec].
  set (hd := if decide (Some (source x) = prev) then []
             else section_header (source x)).
  apply elem_of_cons in Hin as [->|Hin].
  - now exists hd, (render_spec (Some (source x)) r).
  - destruct (IH (Some (source x)) Hin) as (pre & post & ->).
    exists (hd ++ item_lines x ++ pre), post. now rewrite <- !app_assoc.
Qed.

(** X20: the digest is its lines joined by line feeds; the lines begin with
    the title line and an empty line, and the lines of every new hit stand
    together among them: its title line, its url line, then its date, its
    matched keywords with the score (when the joined keywords are not
    empty) and its snippet where it has them. *)
Theorem digest_shows_every_hit (today : string) (hits : list Item) (h : Item) :
  h ∈ hits ->
  build_digest today hits = Py.join Py.nl (digest_lines today hits)
  /\ (exists pre post,
        digest_lines today hits
        = digest_title today :: "" :: pre ++ item_lines h ++ post)
  /\ (exists more, item_lines h = ("- " +:+ title h) :: ("  " +:+ url h) :: more)
  /\ ("- " +:+ title h) ∈ digest_lines today hits
  /\ ("  " +:+ url h) ∈ digest_lines today hits
  /\ (Py.join ", " (matched h) <> EmptyString ->
      ("  Matched: " +:+ Py.join ", " (matched h)
       +:+ " (score " +:+ Py.str_of_int (score h) +:+ ")")
        ∈ digest_lines today hits).
Proof.
  intros Hin. split; [apply build_digest_lines|].
  split.
  { rewrite digest_lines_render by (intros ->; inversion Hin).
    destruct (render_spec_block (sort_desc hits) None h) as (pre & post & ->);
      [now rewrite sort_desc_perm|].
    now exists pre, post. }
  split; [unfold item_lines; now eexists|].
  split; [|split].
  - apply digest_lines_item with h; [exact Hin|].
    unfold item_lines. apply elem_of_cons. now left.
  - apply digest_lines_item with h; [exact Hin|].
    unfold item_lines. apply elem_of_cons. right. apply elem_of_cons. now left.
  - intros Hm. apply digest_lines_item with h; [exact Hin|].
    unfold item_lines. apply elem_of_cons. right. apply elem_of_cons. right.
    apply elem_of_app. right. apply elem_of_app. left.
    destruct (Py.join ", " (matched h)) eqn:E; [contradiction|].
    cbn [Py.truthy]. apply elem_of_cons. now left.
Qed.

Lemma digest_shows_every_hit_witness :
  hit "PRNewswire" "Acme signs definitive agreement" "https://pr/a" None 5
    ∈ three_hits
  /\ ("- " +:+ "Acme signs definitive agreement")
       ∈ digest_lines "2024-05-02" three_hits.
Proof.
  assert (H : hit "PRNewswire" "Acme signs definitive agreement" "https://pr/a"
                None 5 ∈ three_hits)
    by (apply list_elem_of_In; simpl; auto).
  split; [exact H|].
  exact (proj1 (proj2 (proj2 (proj2
           (digest_shows_every_hit "2024-05-02" three_hits _ H))))).
Defined.







(** ** A second run *)

(** X17: running [main] again over the same pages, at any later time and
    date, against the table the first run left changes nothing in the table
    and reports no new match. *)
Theorem main_rerun (parse_iso : json -> option string) (repr : json -> string)
    (select_anchors : string -> list anchor) (parse_json : string -> result json)
    (clock clock' : nat -> string) (cfg : config) (net : network)
    (today today' : string) (db : store) :
  let db1 := (main parse_iso repr select_anchors parse_json clock cfg net today db).1 in
  main parse_iso repr select_anchors parse_json clock' cfg net today' db1
  = (db1, digest_title today' +:+ Py.nl +:+ Py.nl +:+ no_matches).
Proof.
  intros db1. unfold main in *. cbn [fst] in db1.
  set (items := fetch_all parse_iso repr select_anchors parse_json cfg net) in *.
  destruct (process_items_nothing_new clock' (keywords cfg) items (mkRun db1 [] 0))
    as [Hc Hn].
  { intros it Hin Hs. cbn [conn]. now apply process_items_recorded. }
  cbn [conn new_hits] in Hc, Hn. now rewrite Hc, Hn.
Qed.

(** ** Short texts *)

Lemma sub_spaces_length (b : bool) (s : string) :
  (String.length (Py.sub_spaces b s) <= String.length s)%nat.
Proof.
  revert b. induction s as [|c s IH]; intros b; [reflexivity|].
  cbn [Py.sub_spaces]. destruct (Py.isspace c).
  - destruct b; cbn [String.length].
    + specialize (IH true). lia.
    + specialize (IH true). lia.
  - cbn [String.length]. specialize (IH false). lia.
Qed.

Lemma lstrip_length (s : string) :
  (String.length (Py.lstrip s) <= String.length s)%nat.
Proof.
  induction s as [|c s IH]; [reflexivity|]. cbn [Py.lstrip].
  destruct (Py.isspace c); cbn [String.length]; lia.
Qed.

Lemma rstrip_length (s : string) :
  (String.length (Py.rstrip s) <= String.length s)%nat.
Proof.
  induction s as [|c s IH]; [reflexivity|]. cbn [Py.rstrip].
  destruct (Py.rstrip s) as [|c' r'].
  - destruct (Py.isspace c); cbn [String.length]; lia.
  - cbn [String.length] in *. lia.
Qed.

Lemma normalize_length (s : string) :
  (String.length (normalize_whitespace s) <= String.length s)%nat.
Proof.
  unfold normalize_whitespace, Py.strip.
  pose proof (rstrip_length (Py.lstrip (Py.sub_spaces false s))).
  pose proof (lstrip_length (Py.sub_spaces false s)).
  pose proof (sub_spaces_length false s). lia.
Qed.

(** X23: normalization never lengthens a text, so an anchor whose text has
    fewer than 12 characters gives no item in either HTML adapter,
    whatever its href. *)
Theorem short_anchor_text_dropped (a : anchor) :
  (String.length (normalize_whitespace (anchor_text a))
   <= String.length (anchor_text a))%nat
  /\ ((String.length (anchor_text a) < 12)%nat ->
      businesswire_anchor a = [] /\ prnewswire_anchor a = []).
Proof.
  pose proof (normalize_length (anchor_text a)) as Hl.
  split; [exact Hl|]. intros H. split.
  - unfold businesswire_anchor. rewrite truthy_length.
    replace (String.length (normalize_whitespace (anchor_text a)) <? 12)%nat
      with true by (symmetry; apply Nat.ltb_lt; lia).
    reflexivity.
  - unfold prnewswire_anchor.
    replace (12 <? String.length (normalize_whitespace (anchor_text a)))%nat
      with false by (symmetry; apply Nat.ltb_ge; lia).
    now rewrite andb_false_r.
Qed.

(** ** Longer texts *)

Lemma filter_weight_mono (f g : string -> bool) (K : list string) :
  (forall kw, f kw = true -> g kw = true) ->
  List.filter f K `sublist_of` List.filter g K
  /\ fold_right Z.add 0 (List.map weight (List.filter f K))
     <= fold_right Z.add 0 (List.map weight (List.filter g K)).
Proof.
  intros H. induction K as [|kw K [IH1 IH2]]; [split; [constructor|reflexivity]|].
  cbn [List.filter]. pose proof (weight_bounds kw) as Hw.
  destruct (f kw) eqn:Ef.
  - rewrite (H kw Ef). cbn [List.map fold_right].
    split; [now apply sublist_skip|lia].
  - destruct (g kw); cbn [List.map fold_right].
    + split; [now apply sublist_cons|lia].
    + now split.
Qed.

(** X24: for texts of characters with code points below 256, where
    [lower] works character by character, text added in front of or behind
    a text loses no match: the keywords matched in the text are matched in
    the longer text, and the score does not drop. *)
Theorem match_keywords_monotone (T before behind : string) (K : list string) :
  (match_keywords T K).1 `sublist_of` (match_keywords (before +:+ T +:+ behind) K).1
  /\ (match_keywords T K).2 <= (match_keywords (before +:+ T +:+ behind) K).2.
Proof.
  rewrite !match_keywords_eq. cbn [fst snd]. unfold score_spec, matched_spec.
  apply filter_weight_mono. intros kw H. unfold occurs_in in *.
  rewrite !lower_app. now apply contains_app_r, contains_app_l.
Qed.
